(** * Ten Moments: guest entitlement and photo lifecycle

    A shallow embedding of the client handlers (React components calling the
    backend client) and of the SQL migrations that define the tables they
    touch.  Tables are finite maps from their key column to the remaining
    columns; every backend call takes the fault the platform may answer with
    ([None]: the call goes through) and returns the [{ data, error }] pair of
    the client library.

    Strings are sequences of code units below 256.  White space ([trim],
    the class [\s]) is what the language's WhiteSpace and LineTerminator
    hold below 256: TAB to CR, the blank and the no-break space U+00A0.
    [toUpperCase] is the JavaScript method on code units below 128
    ([Js.is_ascii]); above 127 the real method may leave the code units
    below 256 or lengthen the string, so the normalisation of typed text
    is stated for ASCII input. *)

From Stdlib Require Import ZArith Ascii String List Bool Lia.
From stdpp Require Import base gmap strings list fin_maps pretty.

Open Scope Z_scope.

(** ** JavaScript string helpers *)
Module Js.

Definition is_lower (c : ascii) : bool :=
  let n := N_of_ascii c in (97 <=? n)%N && (n <=? 122)%N.

Definition is_upper (c : ascii) : bool :=
  let n := N_of_ascii c in (65 <=? n)%N && (n <=? 90)%N.

Definition is_digit (c : ascii) : bool :=
  let n := N_of_ascii c in (48 <=? n)%N && (n <=? 57)%N.

Definition upper_char (c : ascii) : ascii :=
  if is_lower c then ascii_of_N (N_of_ascii c - 32) else c.

(** [String.prototype.toUpperCase], exact on the code units below 128. *)
Fixpoint toUpperCase (s : string) : string :=
  match s with
  | EmptyString => EmptyString
  | String c r => String (upper_char c) (toUpperCase r)
  end.

(** WhiteSpace and LineTerminator of the language, below 256:
    TAB, LF, VT, FF, CR, SP and the no-break space U+00A0. *)
Definition is_white_space (c : ascii) : bool :=
  let n := N_of_ascii c in
  ((9 <=? n)%N && (n <=? 13)%N) || (n =? 32)%N || (n =? 160)%N.

Fixpoint trimStart (s : string) : string :=
  match s with
  | EmptyString => EmptyString
  | String c r => if is_white_space c then trimStart r else s
  end.

Fixpoint trimEnd (s : string) : string :=
  match s with
  | EmptyString => EmptyString
  | String c r =>
      match trimEnd r with
      | EmptyString => if is_white_space c then EmptyString else String c EmptyString
      | r' => String c r'
      end
  end.

(** [String.prototype.trim] *)
Definition trim (s : string) : string := trimEnd (trimStart s).

(** [s.substring(0, n)] *)
Definition substring0 (n : nat) (s : string) : string := String.substring 0 n s.

(** Truthiness of a [string | null | undefined] value: the empty string is
    falsy. *)
Definition truthy (o : option string) : bool :=
  match o with
  | Some (String _ _) => true
  | _ => false
  end.

(** [s || null] *)
Definition or_null (s : string) : option string :=
  match s with
  | EmptyString => None
  | _ => Some s
  end.

(** [o || ""] *)
Definition or_empty (o : option string) : string :=
  match o with
  | Some s => s
  | None => EmptyString
  end.

(** [name.replace(/[^a-zA-Z0-9.-]/g, '_')] *)
Definition sanitize_char (c : ascii) : ascii :=
  if is_lower c || is_upper c || is_digit c
     || (N_of_ascii c =? 46)%N || (N_of_ascii c =? 45)%N
  then c else "_"%char.

Fixpoint sanitize (s : string) : string :=
  match s with
  | EmptyString => EmptyString
  | String c r => String (sanitize_char c) (sanitize r)
  end.

(** Every code unit of [s] is below 128. *)
Fixpoint is_ascii (s : string) : bool :=
  match s with
  | EmptyString => true
  | String c r => (N_of_ascii c <? 128)%N && is_ascii r
  end.

(** Every code unit of [s] is white space. *)
Fixpoint all_white_space (s : string) : bool :=
  match s with
  | EmptyString => true
  | String c r => is_white_space c && all_white_space r
  end.

End Js.

(** ** Toast notifications *)
Inductive Variant := Default | Destructive.

Record Toast := mkToast {
  title : string;
  description : option string;
  variant : Variant
}.

(** ** The database: tables, constraints, row-level policies *)
Module Backend.

(** [public.guests], keyed by [id]. *)
Record Guest := mkGuest {
  g_wedding_event_id : string;
  g_guest_name : option string;
  session_token : string;
  photos_remaining : Z;
  has_unlocked_feed : bool
}.

(** [public.photos], keyed by [id]. *)
Record Photo := mkPhoto {
  p_wedding_event_id : string;
  guest_id : string;
  image_url : string;
  p_guest_name : option string;
  caption : option string;
  captured_at : string
}.

(** [public.wedding_events], keyed by its [UNIQUE NOT NULL] column
    [event_code]; [e_id] is the primary key column. *)
Record WeddingEvent := mkWeddingEvent {
  e_id : string;
  couple_user_id : string;
  couple_name : string;
  partner_name : string;
  wedding_date : string
}.

Record Db := mkDb {
  photos_remaining_default : Z;       (* DEFAULT of guests.photos_remaining *)
  wedding_events : gmap string WeddingEvent;
  guests : gmap string Guest;
  photos : gmap string Photo;
  storage : gset string               (* object names in bucket wedding-photos *)
}.

Definition set_wedding_events (f : gmap string WeddingEvent → gmap string WeddingEvent) (db : Db) : Db :=
  mkDb (photos_remaining_default db) (f (wedding_events db)) (guests db) (photos db) (storage db).

Definition set_guests (f : gmap string Guest → gmap string Guest) (db : Db) : Db :=
  mkDb (photos_remaining_default db) (wedding_events db) (f (guests db)) (photos db) (storage db).

Definition set_photos (f : gmap string Photo → gmap string Photo) (db : Db) : Db :=
  mkDb (photos_remaining_default db) (wedding_events db) (guests db) (f (photos db)) (storage db).

Definition set_storage (f : gset string → gset string) (db : Db) : Db :=
  mkDb (photos_remaining_default db) (wedding_events db) (guests db) (photos db) (f (storage db)).

Definition set_photos_remaining_default (d : Z) (db : Db) : Db :=
  mkDb d (wedding_events db) (guests db) (photos db) (storage db).

Definition with_quota (pr : Z) (g : Guest) : Guest :=
  mkGuest (g_wedding_event_id g) (g_guest_name g) (session_token g) pr (has_unlocked_feed g).

Definition with_quota_unlocked (pr : Z) (unlocked : bool) (g : Guest) : Guest :=
  mkGuest (g_wedding_event_id g) (g_guest_name g) (session_token g) pr unlocked.

Definition with_caption (c : option string) (p : Photo) : Photo :=
  mkPhoto (p_wedding_event_id p) (guest_id p) (image_url p) (p_guest_name p) c (captured_at p).

(** The row of [wedding_events] whose primary key is [eid]. *)
Definition event_by_id (db : Db) (eid : string) : option (string * WeddingEvent) :=
  List.find (λ kv, String.eqb (e_id kv.2) eid) (map_to_list (wedding_events db)).

Definition token_taken (db : Db) (tok : string) : bool :=
  existsb (λ kv, String.eqb (session_token kv.2) tok) (map_to_list (guests db)).

(** [CONSTRAINT photos_caption_length CHECK (caption IS NULL OR
    (char_length(caption) >= 1 AND char_length(caption) <= 150))] *)
Definition photos_caption_length (c : option string) : bool :=
  match c with
  | None => true
  | Some s => (1 <=? String.length s)%nat && (String.length s <=? 150)%nat
  end.

(** *** Storage bucket *)

(** [storage.from("wedding-photos").upload(path, file, { upsert: false })] *)
Definition storage_upload (fault : option string) (path : string) (db : Db)
  : Db * option string :=
  match fault with
  | Some e => (db, Some e)
  | None =>
      if bool_decide (path ∈ storage db)
      then (db, Some "The resource already exists"%string)
      else (set_storage (λ s, {[path]} ∪ s) db, None)
  end.

(** [storage.from("wedding-photos").remove(paths)] *)
Definition storage_remove (fault : option string) (paths : list string) (db : Db)
  : Db * option string :=
  match fault with
  | Some e => (db, Some e)
  | None => (set_storage (λ s, s ∖ list_to_set paths) db, None)
  end.

(** *** Table [photos] *)

(** [from("photos").insert({...})]: the database supplies [id] and
    [captured_at]; both foreign keys, the primary key and the caption
    check are enforced. *)
Definition photos_insert (fault : option string) (new_id now : string)
    (wedding_event_id guest : string) (url : string)
    (guest_name cap : option string) (db : Db) : Db * option string :=
  match fault with
  | Some e => (db, Some e)
  | None =>
      if negb (photos_caption_length cap)
      then (db, Some "new row violates check constraint photos_caption_length"%string)
      else if negb (bool_decide (is_Some (guests db !! guest)))
      then (db, Some "violates foreign key constraint photos_guest_id_fkey"%string)
      else if negb (bool_decide (is_Some (event_by_id db wedding_event_id)))
      then (db, Some "violates foreign key constraint photos_wedding_event_id_fkey"%string)
      else if bool_decide (is_Some (photos db !! new_id))
      then (db, Some "duplicate key value violates unique constraint photos_pkey"%string)
      else (set_photos
              (insert new_id (mkPhoto wedding_event_id guest url guest_name cap now)) db,
            None)
  end.

(** [from("photos").delete().eq("id", pid)] under the policy
    "Guests can delete own photos" [USING (auth.uid() = guest_id)]:
    a row the policy hides is silently left alone. *)
Definition photos_delete (fault : option string) (uid pid : string) (db : Db)
  : Db * option string :=
  match fault with
  | Some e => (db, Some e)
  | None =>
      match photos db !! pid with
      | Some p =>
          if String.eqb (guest_id p) uid
          then (set_photos (delete pid) db, None)
          else (db, None)
      | None => (db, None)
      end
  end.

(** [from("photos").update({ caption }).eq("id", pid)] under the policy
    "Guests can update own photos"; the check constraint is evaluated on
    the rows that are updated. *)
Definition photos_update_caption (fault : option string) (uid pid : string)
    (cap : option string) (db : Db) : Db * option string :=
  match fault with
  | Some e => (db, Some e)
  | None =>
      match photos db !! pid with
      | Some p =>
          if String.eqb (guest_id p) uid
          then if photos_caption_length cap
               then (set_photos (insert pid (with_caption cap p)) db, None)
               else (db, Some "new row violates check constraint photos_caption_length"%string)
          else (db, None)
      | None => (db, None)
      end
  end.

(** *** Table [guests] *)

(** [from("guests").insert({ wedding_event_id, guest_name, session_token })
    .select().single()]: [id], [photos_remaining] and [has_unlocked_feed]
    take their column defaults.  The answer is either the error or the
    inserted row.  A refusal by a row-level policy is one of the errors
    [fault] stands for: once "Guests can create their own session"
    ([WITH CHECK (auth.uid() = id)]) has replaced "Anyone can create a
    guest session", an insert by a client that is not signed in under the
    new row's id is refused. *)
Definition guests_insert (fault : option string) (new_id : string)
    (wedding_event_id : string) (guest_name : option string) (tok : string)
    (db : Db) : Db * (string + string * Guest) :=
  match fault with
  | Some e => (db, inl e)
  | None =>
      if negb (bool_decide (is_Some (event_by_id db wedding_event_id)))
      then (db, inl "violates foreign key constraint guests_wedding_event_id_fkey"%string)
      else if token_taken db tok
      then (db, inl "duplicate key value violates unique constraint guests_session_token_key"%string)
      else if bool_decide (is_Some (guests db !! new_id))
      then (db, inl "duplicate key value violates unique constraint guests_pkey"%string)
      else
        let row := mkGuest wedding_event_id guest_name tok (photos_remaining_default db) false in
        (set_guests (insert new_id row) db, inr (new_id, row))
  end.

(** [from("guests").update({ photos_remaining, has_unlocked_feed }).eq("id", g)] *)
Definition guests_update_upload (fault : option string) (g : string)
    (pr : Z) (unlocked : bool) (db : Db) : Db * option string :=
  match fault with
  | Some e => (db, Some e)
  | None => (set_guests (alter (with_quota_unlocked pr unlocked) g) db, None)
  end.

(** [from("guests").update({ photos_remaining }).eq("id", g)] *)
Definition guests_update_quota (fault : option string) (g : string) (pr : Z) (db : Db)
  : Db * option string :=
  match fault with
  | Some e => (db, Some e)
  | None => (set_guests (alter (with_quota pr) g) db, None)
  end.

(** [from("guests").select(...).eq("id", g).single()] *)
Definition guests_select_single (fault : option string) (g : string) (db : Db)
  : option Guest * option string :=
  match fault with
  | Some e => (None, Some e)
  | None =>
      match guests db !! g with
      | Some row => (Some row, None)
      | None => (None, Some "JSON object requested, multiple (or no) rows returned"%string)
      end
  end.

(** *** Table [wedding_events] *)

(** [from("wedding_events").select("*").eq("event_code", code).maybeSingle()] *)
Definition events_select_by_code (fault : option string) (code : string) (db : Db)
  : option WeddingEvent * option string :=
  match fault with
  | Some e => (None, Some e)
  | None => (wedding_events db !! code, None)
  end.

(** [from("wedding_events").select("*").eq("id", eid).single()] *)
Definition events_select_single (fault : option string) (eid : string) (db : Db)
  : option (string * WeddingEvent) * option string :=
  match fault with
  | Some e => (None, Some e)
  | None =>
      match event_by_id db eid with
      | Some row => (Some row, None)
      | None => (None, Some "JSON object requested, multiple (or no) rows returned"%string)
      end
  end.

(** [from("wedding_events").insert({...}).select().single()]: either the
    error or the inserted row. *)
Definition events_insert (fault : option string) (new_id : string)
    (user name partner date code : string) (db : Db)
  : Db * (string + string * WeddingEvent) :=
  match fault with
  | Some e => (db, inl e)
  | None =>
      if bool_decide (is_Some (wedding_events db !! code))
      then (db, inl "duplicate key value violates unique constraint wedding_events_event_code_key"%string)
      else if bool_decide (is_Some (event_by_id db new_id))
      then (db, inl "duplicate key value violates unique constraint wedding_events_pkey"%string)
      else
        let row := mkWeddingEvent new_id user name partner date in
        (set_wedding_events (insert code row) db, inr (code, row))
  end.

End Backend.

(** ** Migrations that set the guest quota *)
Module Migrations.
Import Backend.

(** 20260105182440: the tables are created empty;
    [photos_remaining INTEGER NOT NULL DEFAULT 10],
    [has_unlocked_feed BOOLEAN NOT NULL DEFAULT false]. *)
Definition create_tables : Db := mkDb 10 ∅ ∅ ∅ ∅.

(** 20260123003258:
    [ALTER TABLE guests ALTER COLUMN photos_remaining SET DEFAULT 20;
     UPDATE guests SET photos_remaining = 20 WHERE photos_remaining = 10;] *)
Definition raise_default_row (g : Guest) : Guest :=
  if photos_remaining g =? 10 then with_quota 20 g else g.

Definition raise_default (db : Db) : Db :=
  set_guests (fmap raise_default_row) (set_photos_remaining_default 20 db).

End Migrations.

(** ** Handlers as scripts over the backend

    An [async] handler body is a script: it threads the database and the
    browser console, and a [throw] skips to the enclosing [catch]. *)
Module Script.
Import Backend.

Record World := mkWorld { world_db : Db; console : list string }.

Definition Try (A : Type) : Type := World → World * (string + A).

Definition ret {A} (a : A) : Try A := λ w, (w, inr a).

Definition throw {A} (e : string) : Try A := λ w, (w, inl e).

Definition bind {A B} (m : Try A) (k : A → Try B) : Try B :=
  λ w, match m w with
       | (w', inl e) => (w', inl e)
       | (w', inr a) => k a w'
       end.

(** [await] of a call that changes the database. *)
Definition await {A} (call : Db → Db * A) : Try A :=
  λ w, let '(db', r) := call (world_db w) in (mkWorld db' (console w), inr r).

(** [await] of a read. *)
Definition query {A} (q : Db → A) : Try A :=
  λ w, (w, inr (q (world_db w))).

(** [console.error(label, e)] *)
Definition console_error (label e : string) : Try unit :=
  λ w, (mkWorld (world_db w) (console w ++ [label +:+ " " +:+ e]), inr tt).

(** [if (error) throw error] *)
Definition throw_if (error : option string) : Try unit :=
  match error with
  | Some e => throw e
  | None => ret tt
  end.

(** [try { body } catch (error) { handler(error.message) }] started on
    an empty console. *)
Definition try_catch {A} (body : Try A) (handler : string → A) (db : Db)
  : Db * list string * A :=
  match body (mkWorld db []) with
  | (w, inr a) => (world_db w, console w, a)
  | (w, inl e) => (world_db w, console w, handler e)
  end.

End Script.

Declare Scope script_scope.
Delimit Scope script_scope with script.
Notation "'let*' x ':=' m 'in' k" := (Script.bind m (λ x, k))
  (at level 10, x name, m at level 200, k at level 200,
   format "'[v' 'let*'  x  ':='  m  'in' '/' k ']'") : script_scope.
Notation "m ';;' k" := (Script.bind m (λ _, k))
  (at level 100, k at level 200, right associativity) : script_scope.

(** ** src/components/PhotoUpload.tsx (revision with captions) *)
Module PhotoUpload.
Import Backend Script.

Record Props := mkProps {
  guestId : string;
  eventId : string;
  photosRemaining : Z;
  guestName : option string
}.

Record File := mkFile { file_name : string; file_type : string }.

(** What the platform and the clock answer during one upload. *)
Record Env := mkEnv {
  date_now : string;               (* Date.now(), printed *)
  upload_fault : option string;    (* storage upload *)
  photo_fault : option string;     (* photos insert *)
  photo_id : string;               (* gen_random_uuid() *)
  photo_now : string;              (* now() *)
  update_fault : option string     (* guests update *)
}.

Definition MAX_CAPTION_LENGTH : nat := 150.

(** The caption text area: [onChange] keeps the previous value when the
    new one is longer than [MAX_CAPTION_LENGTH]. *)
Definition onChange (caption value : string) : string :=
  if (String.length value <=? MAX_CAPTION_LENGTH)%nat then value else caption.

Inductive Result :=
| NoFile                    (* [if (!selectedFile) return] *)
| Captured (t : Toast)      (* toast "Moment captured!", then [onSuccess()] *)
| Failed (t : Toast).       (* toast "Upload failed" *)

Definition caption_field (caption : string) : option string :=
  let trimmedCaption := Js.trim caption in
  if (0 <? String.length trimmedCaption)%nat then Some trimmedCaption else None.

Definition fileName (env : Env) (props : Props) (f : File) : string :=
  eventId props +:+ "/" +:+ guestId props +:+ "/" +:+ date_now env +:+ "-"
    +:+ Js.sanitize (file_name f).

Definition upload_body (env : Env) (props : Props) (f : File) (caption : string)
  : Try Result :=
  (let* uploadError :=
     await (storage_upload (upload_fault env) (fileName env props f)) in
   throw_if uploadError ;;
   let* photoError :=
     await (photos_insert (photo_fault env) (photo_id env) (photo_now env)
              (eventId props) (guestId props) (fileName env props f)
              (guestName props) (caption_field caption)) in
   throw_if photoError ;;
   let* updateError :=
     await (guests_update_upload (update_fault env) (guestId props)
              (photosRemaining props - 1) true) in
   throw_if updateError ;;
   ret (Captured (mkToast "Moment captured!"
                    (Some (pretty (photosRemaining props - 1) +:+ " photos remaining."))
                    Default)))%script.

Definition handleUpload (env : Env) (props : Props) (selectedFile : option File)
    (caption : string) (db : Db) : Db * Result :=
  match selectedFile with
  | None => (db, NoFile)
  | Some f =>
      let '(db', _, r) :=
        try_catch (upload_body env props f caption)
          (λ message, Failed (mkToast "Upload failed" (Some message) Destructive)) db in
      (db', r)
  end.

End PhotoUpload.

(** ** src/components/PhotoSwipeFeed.tsx (revision with captions and delete) *)
Module PhotoSwipeFeed.
Import Backend Script.

(** A fetched row: the photo id with its other columns. *)
Definition FeedPhoto : Type := string * Photo.

Definition MAX_CAPTION_LENGTH : nat := 150.

(** [fetchPhotos]: the photos of the event (the order of the feed and the
    signed URLs are presentation only). *)
Definition fetchPhotos (eventId : string) (db : Db) : list FeedPhoto :=
  List.filter (λ kv, String.eqb (p_wedding_event_id kv.2) eventId)
    (map_to_list (photos db)).

(** [const isOwner = currentGuestId && photo.guest_id === currentGuestId] *)
Definition isOwner (currentGuestId : option string) (photo : FeedPhoto) : bool :=
  Js.truthy currentGuestId
  && bool_decide (Some (guest_id photo.2) = currentGuestId).

(** [handleEditCaption]: the initial content of the edit box. *)
Definition handleEditCaption (photo : FeedPhoto) : option string * string :=
  (Some photo.1, Js.or_empty (caption photo.2)).

Definition onChange (editCaption value : string) : string :=
  if (String.length value <=? MAX_CAPTION_LENGTH)%nat then value else editCaption.

Definition caption_field (editCaption : string) : option string :=
  let trimmedCaption := Js.trim editCaption in
  if (0 <? String.length trimmedCaption)%nat then Some trimmedCaption else None.

Inductive SaveResult :=
| NotEditing                (* [if (!editingPhotoId) return] *)
| Saved (t : Toast).        (* either toast; editing state is reset *)

(** [uid] is the principal of the session, [auth.uid()] in the policies. *)
Definition handleSaveCaption (uid : string) (fault : option string)
    (editingPhotoId : option string) (editCaption : string) (db : Db)
  : Db * SaveResult :=
  match editingPhotoId with
  | Some (String _ _ as pid) =>
      let '(db', error) :=
        photos_update_caption fault uid pid (caption_field editCaption) db in
      match error with
      | Some message =>
          (db', Saved (mkToast "Failed to update caption" (Some message) Destructive))
      | None => (db', Saved (mkToast "Caption updated" None Default))
      end
  | _ => (db, NotEditing)
  end.

Record DeleteEnv := mkDeleteEnv {
  storage_fault : option string;      (* storage remove *)
  db_fault : option string;           (* photos delete *)
  guest_fetch_fault : option string;  (* guests select *)
  guest_update_fault : option string  (* guests update *)
}.

Inductive DeleteResult :=
| NotStarted                (* nothing selected, no guest, or photo not in the feed *)
| Deleted (t : Toast)       (* toast "Photo deleted", then [onPhotoDeleted?.()] *)
| DeleteFailed (t : Toast). (* toast "Failed to delete photo" *)

Definition delete_body (uid : string) (env : DeleteEnv) (photoToDelete : FeedPhoto)
    (deletePhotoId currentGuestId : string) : Try DeleteResult :=
  (let* storageError :=
     await (storage_remove (storage_fault env) [image_url photoToDelete.2]) in
   match storageError with
   | Some e => console_error "Storage delete error:" e
   | None => ret tt
   end ;;
   let* dbError := await (photos_delete (db_fault env) uid deletePhotoId) in
   throw_if dbError ;;
   let* fetched :=
     query (guests_select_single (guest_fetch_fault env) currentGuestId) in
   match fetched.2, fetched.1 with
   | None, Some guestData =>
       let newRemaining := Z.min (photos_remaining guestData + 1) 10 in
       let* _ := await (guests_update_quota (guest_update_fault env)
                          currentGuestId newRemaining) in
       ret tt
   | _, _ => ret tt
   end ;;
   ret (Deleted (mkToast "Photo deleted"
                   (Some "Your photo credit has been restored."%string) Default)))%script.

(** Returns the database, what was written to the console, and the
    result shown to the guest. *)
Definition handleDeletePhoto (uid : string) (env : DeleteEnv)
    (photos : list FeedPhoto) (deletePhotoId currentGuestId : option string)
    (db : Db) : Db * list string * DeleteResult :=
  match deletePhotoId, currentGuestId with
  | Some (String _ _ as pid), Some (String _ _ as g) =>
      match List.find (λ p : FeedPhoto, String.eqb p.1 pid) photos with
      | None => (db, [], NotStarted)
      | Some photoToDelete =>
          try_catch (delete_body uid env photoToDelete pid g)
            (λ message,
               DeleteFailed (mkToast "Failed to delete photo" (Some message) Destructive))
            db
      end
  | _, _ => (db, [], NotStarted)
  end.

End PhotoSwipeFeed.

(** ** src/hooks/useGuestSession.ts *)
Module GuestSession.

Record t := mk {
  guestId : string;
  weddingEventId : string;
  sessionToken : string;
  guestName : option string
}.

End GuestSession.

(** ** src/pages/Guest.tsx *)
Module Guest.
Import Backend.

(** [fetchData]: both reads must succeed, otherwise the session is
    declared expired. *)
Definition fetchData (guest_fault event_fault : option string)
    (guestSession : GuestSession.t) (db : Db)
  : option (Guest * (string * WeddingEvent)) :=
  let guestResult :=
    guests_select_single guest_fault (GuestSession.guestId guestSession) db in
  let eventResult :=
    events_select_single event_fault (GuestSession.weddingEventId guestSession) db in
  match guestResult, eventResult with
  | (Some guestData, None), (Some weddingEvent, None) => Some (guestData, weddingEvent)
  | _, _ => None
  end.

(** When the capture button can be pressed.  Locked feed: the button is
    [disabled={guestData.photos_remaining === 0}]; unlocked feed: it is
    rendered under [guestData.photos_remaining > 0]. *)
Definition can_capture (guestData : Guest) : bool :=
  if has_unlocked_feed guestData
  then 0 <? photos_remaining guestData
  else negb (photos_remaining guestData =? 0).

Inductive CaptureResult :=
| SessionExpired
| CaptureDisabled
| Upload (r : PhotoUpload.Result).

(** A guest page that has just loaded: [fetchData] reads the guest row,
    then the guest presses the capture button, picks a file, types into
    the caption box and confirms.  The same on a page that has kept an
    older copy of the row is [Tabs.press_capture]. *)
Definition capture (guest_fault event_fault : option string) (env : PhotoUpload.Env)
    (guestSession : GuestSession.t) (selectedFile : option PhotoUpload.File)
    (typed : list string) (db : Db) : Db * CaptureResult :=
  match fetchData guest_fault event_fault guestSession db with
  | None => (db, SessionExpired)
  | Some (guestData, _) =>
      if can_capture guestData
      then
        let props :=
          PhotoUpload.mkProps (GuestSession.guestId guestSession)
            (GuestSession.weddingEventId guestSession)
            (photos_remaining guestData) (g_guest_name guestData) in
        let caption := fold_left PhotoUpload.onChange typed EmptyString in
        let '(db', r) := PhotoUpload.handleUpload env props selectedFile caption db in
        (db', Upload r)
      else (db, CaptureDisabled)
  end.

End Guest.

(** ** Owner actions of the feed, as the component offers them *)
Module Feed.
Import Backend PhotoSwipeFeed.

(** The trash button of photo [pid], rendered under [isOwner && !isEditing],
    then the confirmation dialog, on a feed that has just fetched its
    photos and is mounted with the guest of the session as
    [currentGuestId].  The session principal is the guest id (anonymous
    sign-in: [auth.uid()] is the guest's [id]).  The same on a feed that
    has kept an older list, or is mounted with another [currentGuestId] or
    none, is [Tabs.press_delete]. *)
Definition delete_photo (env : DeleteEnv) (guestSession : GuestSession.t)
    (pid : string) (db : Db) : Db * list string * DeleteResult :=
  let currentGuestId := Some (GuestSession.guestId guestSession) in
  let photos := fetchPhotos (GuestSession.weddingEventId guestSession) db in
  match List.find (λ p : FeedPhoto, String.eqb p.1 pid) photos with
  | Some photo =>
      if isOwner currentGuestId photo
      then handleDeletePhoto (GuestSession.guestId guestSession) env photos
             (Some photo.1) currentGuestId db
      else (db, [], NotStarted)
  | None => (db, [], NotStarted)
  end.

(** The pencil button of photo [pid], typing, then the check button, on
    such a feed; [Tabs.press_save] takes the feed state as it is. *)
Definition edit_caption (fault : option string) (guestSession : GuestSession.t)
    (pid : string) (typed : list string) (db : Db) : Db * SaveResult :=
  let currentGuestId := Some (GuestSession.guestId guestSession) in
  let photos := fetchPhotos (GuestSession.weddingEventId guestSession) db in
  match List.find (λ p : FeedPhoto, String.eqb p.1 pid) photos with
  | Some photo =>
      if isOwner currentGuestId photo
      then
        let '(editingPhotoId, editCaption) := handleEditCaption photo in
        handleSaveCaption (GuestSession.guestId guestSession) fault editingPhotoId
          (fold_left onChange typed editCaption) db
      else (db, NotEditing)
  | None => (db, NotEditing)
  end.

End Feed.

(** ** The join page *)
Module JoinWedding.
Import Backend.

Record Env := mkEnv {
  event_fault : option string;     (* wedding_events select *)
  random_uuid : string;            (* crypto.randomUUID() *)
  guest_fault : option string;     (* guests insert *)
  guest_uuid : string              (* gen_random_uuid() *)
}.

Inductive Result :=
| EventNotFound (t : Toast)
| ErrorJoining (t : Toast)
| Joined (session : GuestSession.t) (t : Toast).

(** The code the lookup compares with the stored codes. *)
Definition normalize (eventCode : string) : string :=
  Js.trim (Js.toUpperCase eventCode).

Definition handleJoin (env : Env) (eventCode guestName : string) (db : Db)
  : Db * Result :=
  match events_select_by_code (event_fault env) (normalize eventCode) db with
  | (Some event, None) =>
      let sessionToken := random_uuid env in
      let '(db', inserted) :=
        guests_insert (guest_fault env) (guest_uuid env) (e_id event)
          (Js.or_null (Js.trim guestName)) sessionToken db in
      match inserted with
      | inl message =>
          (db', ErrorJoining (mkToast "Error joining" (Some message) Destructive))
      | inr guest =>
          (db',
           Joined
             (GuestSession.mk guest.1 (e_id event) sessionToken
                (Js.or_null (Js.trim guestName)))
             (mkToast ("Welcome to " +:+ couple_name event +:+ " & "
                         +:+ partner_name event +:+ "'s wedding!")
                (Some "You have 10 photos to share."%string) Default))
      end
  | _ =>
      (db,
       EventNotFound
         (mkToast "Event not found"
            (Some "Please check your event code and try again."%string) Destructive))
  end.

End JoinWedding.

(** ** The couple's dashboard *)
Module Dashboard.
Import Backend.

(** [random36] is [Math.random().toString(36)]. *)
Definition generateEventCode (coupleName partnerName random36 : string) : string :=
  let names := Js.toUpperCase (Js.substring0 3 coupleName +:+ Js.substring0 3 partnerName) in
  let random := Js.toUpperCase (String.substring 2 4 random36) in
  names +:+ "-" +:+ random.

Inductive Result :=
| NotSignedIn
| CreateError (t : Toast)
| Created (code : string) (t : Toast).

Definition handleCreateEvent (fault : option string) (user : option string)
    (new_id random36 coupleName partnerName weddingDate : string) (db : Db)
  : Db * Result :=
  match user with
  | None => (db, NotSignedIn)
  | Some user_id =>
      let eventCode := generateEventCode coupleName partnerName random36 in
      let '(db', inserted) :=
        events_insert fault new_id user_id coupleName partnerName weddingDate eventCode db in
      match inserted with
      | inl message => (db', CreateError (mkToast "Error" (Some message) Destructive))
      | inr data =>
          (db',
           Created data.1
             (mkToast "Wedding created!"
                (Some "Your wedding photo experience is ready."%string) Default))
      end
  end.

End Dashboard.

(** ** The application as a transition system *)
Module App.
Import Backend.

Inductive action :=
| CreateEvent (fault : option string) (user : option string)
    (new_id random36 coupleName partnerName weddingDate : string)
| Join (env : JoinWedding.Env) (eventCode guestName : string)
| Capture (guest_fault event_fault : option string) (env : PhotoUpload.Env)
    (guestSession : GuestSession.t) (selectedFile : option PhotoUpload.File)
    (typed : list string)
| DeletePhoto (env : PhotoSwipeFeed.DeleteEnv) (guestSession : GuestSession.t)
    (pid : string)
| EditCaption (fault : option string) (guestSession : GuestSession.t)
    (pid : string) (typed : list string)
| RaiseDefault.

Definition step (a : action) (db : Db) : Db :=
  match a with
  | CreateEvent fault user new_id random36 coupleName partnerName weddingDate =>
      (Dashboard.handleCreateEvent fault user new_id random36 coupleName partnerName
         weddingDate db).1
  | Join env eventCode guestName => (JoinWedding.handleJoin env eventCode guestName db).1
  | Capture gf ef env guestSession selectedFile typed =>
      (Guest.capture gf ef env guestSession selectedFile typed db).1
  | DeletePhoto env guestSession pid => (Feed.delete_photo env guestSession pid db).1.1
  | EditCaption fault guestSession pid typed =>
      (Feed.edit_caption fault guestSession pid typed db).1
  | RaiseDefault => Migrations.raise_default db
  end.

Definition run (trace : list action) (db : Db) : Db := fold_left (λ d a, step a d) trace db.

(** The action is a capture by guest [g] that ends in "Moment captured!". *)
Definition is_upload_of (g : string) (a : action) (db : Db) : bool :=
  match a with
  | Capture gf ef env guestSession selectedFile typed =>
      String.eqb (GuestSession.guestId guestSession) g
      && match (Guest.capture gf ef env guestSession selectedFile typed db).2 with
         | Guest.Upload (PhotoUpload.Captured _) => true
         | _ => false
         end
  | _ => false
  end.

(** The action is a delete by guest [g] that ends in "Photo deleted". *)
Definition is_delete_of (g : string) (a : action) (db : Db) : bool :=
  match a with
  | DeletePhoto env guestSession pid =>
      String.eqb (GuestSession.guestId guestSession) g
      && match (Feed.delete_photo env guestSession pid db).2 with
         | PhotoSwipeFeed.Deleted _ => true
         | _ => false
         end
  | _ => false
  end.

(** How many actions of the trace, run from [db], satisfy [p]. *)
Fixpoint count (p : action → Db → bool) (trace : list action) (db : Db) : nat :=
  match trace with
  | [] => 0
  | a :: rest => ((if p a db then 1 else 0) + count p rest (step a db))%nat
  end.

Definition uploads (g : string) := count (is_upload_of g).
Definition deletes (g : string) := count (is_delete_of g).

End App.

(** ** Vocabulary of the properties *)
Module Spec.
Import Backend App.

(** The photo row a capture inserts. *)
Definition uploaded_row (env : PhotoUpload.Env) (props : PhotoUpload.Props)
    (f : PhotoUpload.File) (caption : string) : Photo :=
  mkPhoto (PhotoUpload.eventId props) (PhotoUpload.guestId props)
    (PhotoUpload.fileName env props f) (PhotoUpload.guestName props)
    (PhotoUpload.caption_field caption) (PhotoUpload.photo_now env).

(** The props the guest page hands to the upload form. *)
Definition capture_props (guestSession : GuestSession.t) (guestData : Guest)
  : PhotoUpload.Props :=
  PhotoUpload.mkProps (GuestSession.guestId guestSession)
    (GuestSession.weddingEventId guestSession)
    (photos_remaining guestData) (g_guest_name guestData).

(** How many photo rows belong to guest [g]. *)
Definition owned (g : string) (db : Db) : nat :=
  size (filter (λ kv : string * Photo, guest_id kv.2 = g) (photos db)).

(** The photos table once session [uid] has asked to delete row [pid]. *)
Definition deleted_photos (uid pid : string) (db : Db) : gmap string Photo :=
  match photos db !! pid with
  | Some p => if String.eqb (guest_id p) uid then delete pid (photos db) else photos db
  | None => photos db
  end.



(** [input] is [code] up to letter case, between two runs of white space. *)
Definition differs_in_case_and_padding (input code : string) : Prop :=
  ∃ l core r,
    input = l +:+ core +:+ r
    ∧ Js.all_white_space l = true ∧ Js.all_white_space r = true
    ∧ Js.toUpperCase core = Js.toUpperCase code.

End Spec.

(** ** A wedding used in the examples *)
Module Scenario.
Import Backend App.
Open Scope string_scope.

Definition create_wedding : action :=
  CreateEvent None (Some "couple-1") "event-1" "0.4fzyo82mvyr" "Alice" "Bob" "2026-06-01".

Definition wedding : Db := step create_wedding Migrations.create_tables.

Definition the_event : WeddingEvent :=
  mkWeddingEvent "event-1" "couple-1" "Alice" "Bob" "2026-06-01".

Definition join_env : JoinWedding.Env := JoinWedding.mkEnv None "token-1" None "guest-1".

(** Ann types the code of the invitation in lower case, with blanks. *)
Definition ann_joins : action := Join join_env " alibob-4fzy " "Ann".

Definition joined : Db := step ann_joins wedding.

Definition ann : GuestSession.t := GuestSession.mk "guest-1" "event-1" "token-1" (Some "Ann").

Definition ann_row : Guest := mkGuest "event-1" (Some "Ann") "token-1" 10 false.

Definition photo_file : PhotoUpload.File := PhotoUpload.mkFile "first dance.jpg" "image/jpeg".

Definition upload_env (n : string) : PhotoUpload.Env :=
  PhotoUpload.mkEnv n None None ("photo-" +:+ n) "2026-06-01T18:00:00Z" None.

Definition delete_env : PhotoSwipeFeed.DeleteEnv :=
  PhotoSwipeFeed.mkDeleteEnv None None None None.

Definition capture_nth (n : string) : action :=
  Capture None None (upload_env n) ann (Some photo_file) ["To the happy couple"].

Definition delete_nth (n : string) : action := DeletePhoto delete_env ann ("photo-" +:+ n).

(** [n] rounds of one capture followed by the delete of that photo. *)
Fixpoint rounds (n : nat) : list action :=
  match n with
  | O => []
  | S k => capture_nth (pretty n) :: delete_nth (pretty n) :: rounds k
  end.

(** Two rounds, then two photos that stay. *)
Definition evening : list action := rounds 2 ++ [capture_nth "8"; capture_nth "9"].

(** From the empty tables to Ann's first photo. *)
Definition story : list action := [create_wedding; ann_joins; capture_nth "1"].

Definition first_photo : PhotoSwipeFeed.FeedPhoto :=
  ("photo-1",
   mkPhoto "event-1" "guest-1" "event-1/guest-1/1-first_dance.jpg" (Some "Ann")
     (Some "To the happy couple") "2026-06-01T18:00:00Z").

(** The quota migration runs after Ann has joined; then she takes a photo. *)
Definition raised_with_photo : Db := run [RaiseDefault; capture_nth "1"] joined.

Definition ann_row_raised : Guest := mkGuest "event-1" (Some "Ann") "token-1" 19 true.

Definition storage_down : PhotoSwipeFeed.DeleteEnv :=
  PhotoSwipeFeed.mkDeleteEnv (Some "storage unavailable") None None None.

Definition read_down : PhotoSwipeFeed.DeleteEnv :=
  PhotoSwipeFeed.mkDeleteEnv None None (Some "request timed out") None.

(** A couple whose first name was typed with a leading blank. *)
Definition padded_wedding : Db :=
  step (CreateEvent None (Some "couple-2") "event-2" "0.4fzyo82mvyr" " Al" "Bob" "2026-07-01")
    Migrations.create_tables.

End Scenario.

(** * Further components *)

(** ** The QR code card (QRCodeDisplay) *)
Module QRCodeDisplay.

(** The characters [/[^a-zA-Z0-9\s-]/g] leaves in place. *)
Definition kept (c : ascii) : bool :=
  Js.is_lower c || Js.is_upper c || Js.is_digit c || Js.is_white_space c
  || (N_of_ascii c =? 45)%N.

(** [str.replace(/[^a-zA-Z0-9\s-]/g, '')] *)
Fixpoint strip (s : string) : string :=
  match s with
  | EmptyString => EmptyString
  | String c r => if kept c then String c (strip r) else strip r
  end.

(** [s.replace(/\s+/g, '-')]: every maximal run of white space becomes one
    dash; [in_run] tells that the character before was white space. *)
Fixpoint dash (in_run : bool) (s : string) : string :=
  match s with
  | EmptyString => EmptyString
  | String c r =>
      if Js.is_white_space c
      then if in_run then dash true r else String "-"%char (dash true r)
      else String c (dash false r)
  end.

(** [const sanitize = (str) => str.replace(...).replace(...).substring(0, 50)] *)
Definition sanitize (str : string) : string :=
  Js.substring0 50 (dash false (strip str)).

(** [link.download] of [handleDownload] *)
Definition download_name (coupleName partnerName : string) : string :=
  sanitize coupleName +:+ "-" +:+ sanitize partnerName +:+ "-qr-code.png".

End QRCodeDisplay.

(** ** The feed state and its realtime subscription (PhotoSwipeFeed) *)
Module Realtime.
Import Backend.

(** [interface PhotoWithSignedUrl extends Photo { signedUrl?: string }] *)
Record PhotoWithSignedUrl := mkEntry {
  entry_id : string;
  entry_row : Photo;
  signedUrl : option string
}.

(** [getSignedUrl]: a full URL (legacy rows) is returned as it is; for a
    path the platform is asked, [sign path] being its answer (the error or
    the signed URL); an error is logged and gives [null]. *)
Definition getSignedUrl (sign : string → string + string) (path : string)
  : option string :=
  if String.prefix "http" path then Some path
  else match sign path with
       | inl _ => None
       | inr url => Some url
       end.

Definition with_url (sign : string → string + string) (photo : PhotoSwipeFeed.FeedPhoto)
  : PhotoWithSignedUrl :=
  mkEntry photo.1 photo.2 (getSignedUrl sign (image_url photo.2)).

(** [fetchPhotos]: on an error the state is left as it was. *)
Definition fetchPhotos (fault : option string) (sign : string → string + string)
    (eventId : string) (db : Db) (photos : list PhotoWithSignedUrl)
  : list PhotoWithSignedUrl :=
  match fault with
  | Some _ => photos
  | None => List.map (with_url sign) (PhotoSwipeFeed.fetchPhotos eventId db)
  end.

(** INSERT: [setPhotos((prev) => [{ ...newPhoto, signedUrl }, ...prev])] *)
Definition on_insert (sign : string → string + string)
    (newPhoto : PhotoSwipeFeed.FeedPhoto) (prev : list PhotoWithSignedUrl)
  : list PhotoWithSignedUrl :=
  with_url sign newPhoto :: prev.

(** DELETE: [setPhotos((prev) => prev.filter((p) => p.id !== deletedPhoto.id))] *)
Definition on_delete (deletedId : string) (prev : list PhotoWithSignedUrl)
  : list PhotoWithSignedUrl :=
  List.filter (λ p, negb (String.eqb (entry_id p) deletedId)) prev.

(** UPDATE: [prev.map((p) => p.id === updatedPhoto.id
    ? { ...p, caption: updatedPhoto.caption } : p)] *)
Definition on_update (updatedPhoto : PhotoSwipeFeed.FeedPhoto)
    (prev : list PhotoWithSignedUrl) : list PhotoWithSignedUrl :=
  List.map
    (λ p, if String.eqb (entry_id p) updatedPhoto.1
          then mkEntry (entry_id p) (with_caption (caption updatedPhoto.2) (entry_row p))
                 (signedUrl p)
          else p) prev.

End Realtime.

(** ** src/components/PhotoUpload.tsx, first revision (public URLs) *)
Module PhotoUploadV1.
Import Backend Script.

Definition fileName (env : PhotoUpload.Env) (props : PhotoUpload.Props)
    (f : PhotoUpload.File) : string :=
  PhotoUpload.eventId props +:+ "/" +:+ PhotoUpload.guestId props +:+ "/"
    +:+ PhotoUpload.date_now env +:+ "-" +:+ PhotoUpload.file_name f.

(** [getPublicUrl] is the URL builder of the storage client. *)
Definition upload_body (getPublicUrl : string → string) (env : PhotoUpload.Env)
    (props : PhotoUpload.Props) (f : PhotoUpload.File) : Try PhotoUpload.Result :=
  (let* uploadError :=
     await (storage_upload (PhotoUpload.upload_fault env) (fileName env props f)) in
   throw_if uploadError ;;
   let* photoError :=
     await (photos_insert (PhotoUpload.photo_fault env) (PhotoUpload.photo_id env)
              (PhotoUpload.photo_now env) (PhotoUpload.eventId props)
              (PhotoUpload.guestId props) (getPublicUrl (fileName env props f))
              (PhotoUpload.guestName props) None) in
   throw_if photoError ;;
   let* updateError :=
     await (guests_update_upload (PhotoUpload.update_fault env) (PhotoUpload.guestId props)
              (PhotoUpload.photosRemaining props - 1) true) in
   throw_if updateError ;;
   ret (PhotoUpload.Captured
          (mkToast "Moment captured!"
             (Some (pretty (PhotoUpload.photosRemaining props - 1) +:+ " photos remaining."))
             Default)))%script.

Definition handleUpload (getPublicUrl : string → string) (env : PhotoUpload.Env)
    (props : PhotoUpload.Props) (selectedFile : option PhotoUpload.File) (db : Db)
  : Db * PhotoUpload.Result :=
  match selectedFile with
  | None => (db, PhotoUpload.NoFile)
  | Some f =>
      let '(db', _, r) :=
        try_catch (upload_body getPublicUrl env props f)
          (λ message,
             PhotoUpload.Failed (mkToast "Upload failed" (Some message) Destructive)) db in
      (db', r)
  end.

End PhotoUploadV1.

(** ** The upload form as a state machine (PhotoUpload, revision with captions) *)
Module UploadForm.
Import Backend.

Record State := mkState {
  selectedFile : option PhotoUpload.File;
  preview : option string;
  uploading : bool;
  showConfirm : bool;
  caption : string
}.

Definition initial : State := mkState None None false false EmptyString.

(** [if (showConfirm && preview)]: the confirmation screen is shown. *)
Definition confirming (st : State) : bool := showConfirm st && Js.truthy (preview st).

(** [handleFileSelect]: [files] is [e.target.files], [objectUrl] what
    [URL.createObjectURL] returns. *)
Definition handleFileSelect (files : list PhotoUpload.File) (objectUrl : string)
    (st : State) : State * option Toast :=
  match files with
  | [] => (st, None)
  | file :: _ =>
      if negb (String.prefix "image/" (PhotoUpload.file_type file))
      then (st, Some (mkToast "Invalid file" (Some "Please select an image file."%string)
                        Destructive))
      else (mkState (Some file) (Some objectUrl) (uploading st) true (caption st), None)
  end.

Inductive event :=
| PickFile (files : list PhotoUpload.File) (objectUrl : string)
| ChooseAnother
| TypeCaption (value : string)
| Share (env : PhotoUpload.Env).

(** What one event does: the file input exists on the first screen only;
    the caption box and the two buttons exist on the confirmation screen
    and are disabled while [uploading].  The third component is the file
    and caption handed to the backend, with the result. *)
Definition step (props : PhotoUpload.Props) (ev : event) (st : State) (db : Db)
  : State * Db * option (PhotoUpload.File * string * PhotoUpload.Result) :=
  match ev with
  | PickFile files objectUrl =>
      if confirming st then (st, db, None)
      else ((handleFileSelect files objectUrl st).1, db, None)
  | ChooseAnother =>
      if confirming st && negb (uploading st)
      then (mkState None None (uploading st) false EmptyString, db, None)
      else (st, db, None)
  | TypeCaption value =>
      if confirming st && negb (uploading st)
      then (mkState (selectedFile st) (preview st) (uploading st) (showConfirm st)
              (PhotoUpload.onChange (caption st) value), db, None)
      else (st, db, None)
  | Share env =>
      if confirming st && negb (uploading st)
      then
        match selectedFile st with
        | None => (st, db, None)
        | Some f =>
            let '(db', r) := PhotoUpload.handleUpload env props (Some f) (caption st) db in
            let still_uploading :=
              match r with
              | PhotoUpload.Failed _ => false
              | _ => true
              end in
            (mkState (selectedFile st) (preview st) still_uploading (showConfirm st)
               (caption st), db', Some (f, caption st, r))
        end
      else (st, db, None)
  end.

(** The backend calls of a sequence of events, oldest first. *)
Fixpoint run (props : PhotoUpload.Props) (evs : list event) (st : State) (db : Db)
  : State * Db * list (PhotoUpload.File * string * PhotoUpload.Result) :=
  match evs with
  | [] => (st, db, [])
  | ev :: rest =>
      let '(st1, db1, call) := step props ev st db in
      let '(st2, db2, calls) := run props rest st1 db1 in
      (st2, db2, match call with Some c => c :: calls | None => calls end)
  end.

End UploadForm.

(** ** Download all photos (dashboard, second revision) *)
Module DownloadAll.
Import Backend.

(** [path.split('.').pop()]: the text after the last dot, the whole string
    when there is none.  [acc] is the segment read so far. *)
Fixpoint last_segment (acc s : string) : string :=
  match s with
  | EmptyString => acc
  | String c r =>
      if (N_of_ascii c =? 46)%N then last_segment EmptyString r
      else last_segment (acc +:+ String c EmptyString) r
  end.

(** [path.split('.').pop() || 'jpg'] *)
Definition extension (path : string) : string :=
  match last_segment EmptyString path with
  | EmptyString => "jpg"
  | ext => ext
  end.

Definition alnum_or_underscore (c : ascii) : ascii :=
  if Js.is_lower c || Js.is_upper c || Js.is_digit c then c else "_"%char.

Fixpoint replace_non_alnum (s : string) : string :=
  match s with
  | EmptyString => EmptyString
  | String c r => String (alnum_or_underscore c) (replace_non_alnum r)
  end.

(** [photo.guest_name?.replace(/[^a-zA-Z0-9]/g, '_') || 'guest'] *)
Definition guest_part (guest_name : option string) : string :=
  match guest_name with
  | None => "guest"
  | Some n =>
      match replace_non_alnum n with
      | EmptyString => "guest"
      | s => s
      end
  end.

(** [getTime captured_at] is [new Date(captured_at).getTime()], printed. *)
Definition filename (getTime : string → string) (photo : Photo) : string :=
  guest_part (p_guest_name photo) +:+ "_" +:+ getTime (captured_at photo) +:+ "."
    +:+ extension (image_url photo).

Record Env := mkEnv {
  select_fault : option string;            (* photos select *)
  sign : string → string + string;         (* createSignedUrl, by path *)
  fetch_error : string → option string;    (* fetch(signedUrl): why it rejects *)
  getTime : string → string
}.

Record Outcome := mkOutcome {
  downloads : list string;                 (* [a.download] of every click *)
  console : list string;
  toast : option Toast
}.

(** The [for] loop: a signing error skips the photo, a rejected [fetch]
    leaves the loop for the [catch]. *)
Fixpoint loop (env : Env) (photos : list Photo) (done : list string)
    (log : list string) : list string * list string * option string :=
  match photos with
  | [] => (done, log, None)
  | photo :: rest =>
      match sign env (image_url photo) with
      | inl e => loop env rest done (log ++ ["Error getting signed URL: " +:+ e])
      | inr url =>
          match fetch_error env url with
          | Some e => (done, log, Some e)
          | None => loop env rest (done ++ [filename (getTime env) photo]) log
          end
      end
  end.

(** The rows [from("photos").select(...).eq("wedding_event_id", id)] returns. *)
Definition rows (eventId : string) (db : Db) : list Photo :=
  List.map snd (PhotoSwipeFeed.fetchPhotos eventId db).

(** [weddingEvent] is the event the dashboard holds ([None]: not loaded). *)
Definition handleDownloadAll (env : Env) (weddingEvent : option WeddingEvent) (db : Db)
  : Outcome :=
  match weddingEvent with
  | None => mkOutcome [] [] None
  | Some event =>
      match select_fault env with
      | Some e =>
          mkOutcome [] ["Download error: " +:+ e]
            (Some (mkToast "Download failed"
                     (Some "There was an error downloading photos."%string) Destructive))
      | None =>
          match rows (e_id event) db with
          | [] =>
              mkOutcome [] []
                (Some (mkToast "No photos"
                         (Some "There are no photos to download yet."%string) Default))
          | photos =>
              match loop env photos [] [] with
              | (done, log, None) =>
                  mkOutcome done log
                    (Some (mkToast "Download complete"
                             (Some ("Downloaded " +:+ pretty (List.length photos)
                                      +:+ " photos."))
                             Default))
              | (done, log, Some e) =>
                  mkOutcome done (log ++ ["Download error: " +:+ e])
                    (Some (mkToast "Download failed"
                             (Some "There was an error downloading photos."%string)
                             Destructive))
              end
          end
      end
  end.

End DownloadAll.

(** ** src/pages/CoupleFeed.tsx *)
Module CoupleFeed.
Import Backend.

Inductive View :=
| Waiting                       (* the session is still loading *)
| ToAuth                        (* [navigate("/auth")] *)
| ToDashboard                   (* [navigate("/dashboard")] *)
| Show (event : WeddingEvent) (photos : list Realtime.PhotoWithSignedUrl).

(** The effect that runs when the page is opened at [/feed/:eventCode].
    A failed photo read leaves the list empty. *)
Definition open (authLoading : bool) (user : option string) (eventCode : option string)
    (event_fault photos_fault : option string) (sign : string → string + string)
    (db : Db) : View :=
  if authLoading then Waiting
  else
    match user with
    | None => ToAuth
    | Some user_id =>
        if negb (Js.truthy eventCode) then ToDashboard
        else
          match events_select_by_code event_fault (Js.or_empty eventCode) db with
          | (Some event, None) =>
              if negb (String.eqb (couple_user_id event) user_id) then ToDashboard
              else Show event (Realtime.fetchPhotos photos_fault sign (e_id event) db [])
          | _ => ToDashboard
          end
    end.

End CoupleFeed.

(** ** The guest session over anonymous sign-in (useGuestSession, second revision) *)
Module AnonymousSession.
Import Backend.

(** The session of the auth client: the user id and [is_anonymous]. *)
Definition Auth : Type := option (string * bool).

Record GuestSession := mkSession {
  guestId : string;
  weddingEventId : string;
  guestName : option string
}.

(** [s || undefined] on a [string | null] *)
Definition or_undefined (o : option string) : option string :=
  match o with
  | Some (String _ _ as s) => Some s
  | _ => None
  end.

Record Env := mkEnv {
  auth_answer : string + option string;   (* signInAnonymously: error, or the user *)
  random_uuid : string;                   (* crypto.randomUUID() *)
  guest_fault : option string             (* guests insert *)
}.

Record Result := mkResult { success : bool; error : option string }.

(** [createGuestSession]: returns the auth session, the database, the
    guest session held by the hook and the result.  The sign-out after a
    refused insert reaches the hook's listener, which clears the guest
    session ([SIGNED_OUT]). *)
Definition createGuestSession (env : Env) (weddingEventId : string)
    (guestName : option string) (auth : Auth) (held : option GuestSession) (db : Db)
  : Auth * Db * option GuestSession * Result :=
  match auth_answer env with
  | inl message => (auth, db, held, mkResult false (Some message))
  | inr None => (auth, db, held, mkResult false (Some "Failed to create session"%string))
  | inr (Some uid) =>
      let '(db', inserted) :=
        guests_insert (guest_fault env) uid weddingEventId guestName (random_uuid env) db in
      match inserted with
      | inl message => (None, db', None, mkResult false (Some message))
      | inr _ =>
          (Some (uid, true), db',
           Some (mkSession uid weddingEventId (or_undefined guestName)),
           mkResult true None)
      end
  end.

(** [checkSession], run when the hook mounts: the guest session it finds. *)
Definition checkSession (fault : option string) (auth : Auth) (db : Db)
  : option GuestSession :=
  match auth with
  | Some (uid, true) =>
      match guests_select_single fault uid db with
      | (Some guest, _) =>
          Some (mkSession uid (g_wedding_event_id guest) (or_undefined (g_guest_name guest)))
      | (None, _) => None
      end
  | _ => None
  end.

End AnonymousSession.

(** ** The couple's dashboard: loading the event and the counters *)
Module CoupleDashboard.
Import Backend.

(** [from("wedding_events").select("*").eq("couple_user_id", id).maybeSingle()] *)
Definition events_select_by_couple (fault : option string) (user_id : string) (db : Db)
  : option (string * WeddingEvent) * option string :=
  match fault with
  | Some e => (None, Some e)
  | None =>
      match List.filter (λ kv, String.eqb (couple_user_id kv.2) user_id)
              (map_to_list (wedding_events db)) with
      | [] => (None, None)
      | [row] => (Some row, None)
      | _ => (None, Some "JSON object requested, multiple (or no) rows returned"%string)
      end
  end.

(** [fetchWeddingEvent]: the event the dashboard holds afterwards (it holds
    none before), and what went to the console. *)
Definition fetchWeddingEvent (fault : option string) (user : option string) (db : Db)
  : option (string * WeddingEvent) * list string :=
  match user with
  | None => (None, [])
  | Some user_id =>
      match events_select_by_couple fault user_id db with
      | (_, Some e) => (None, ["Error fetching wedding event: " +:+ e])
      | (Some data, None) => (Some data, [])
      | (None, None) => (None, [])
      end
  end.

Record GuestStats := mkStats { total_guests : nat; total_photos : nat }.

(** [select("id", { count: "exact" }).eq("wedding_event_id", eventId)]:
    a failed read has [count: null]. *)
Definition count_guests (fault : option string) (eventId : string) (db : Db) : option nat :=
  match fault with
  | Some _ => None
  | None =>
      Some (List.length
              (List.filter (λ kv, String.eqb (g_wedding_event_id kv.2) eventId)
                 (map_to_list (guests db))))
  end.

Definition count_photos (fault : option string) (eventId : string) (db : Db) : option nat :=
  match fault with
  | Some _ => None
  | None => Some (List.length (PhotoSwipeFeed.fetchPhotos eventId db))
  end.

(** [count || 0] *)
Definition or_zero (count : option nat) : nat :=
  match count with
  | Some n => n
  | None => 0%nat
  end.

Definition fetchGuestStats (guests_fault photos_fault : option string) (eventId : string)
    (db : Db) : GuestStats :=
  mkStats (or_zero (count_guests guests_fault eventId db))
    (or_zero (count_photos photos_fault eventId db)).

End CoupleDashboard.

(** ** What the guest page shows (src/pages/Guest.tsx) *)
Module GuestPage.
Import Backend.

Inductive View :=
| Loading
| Nothing                                   (* [return null] *)
| UploadForm (props : PhotoUpload.Props)
| Locked (capture_disabled : bool)          (* the lock, no feed *)
| FeedView (eventId : string) (capture_button : bool)
| Broken.                                   (* [guestSession!] on [null] *)

Definition render (sessionLoading loading : bool) (guestSession : option GuestSession.t)
    (guestData : option Guest) (weddingEvent : option (string * WeddingEvent))
    (showUpload : bool) : View :=
  if sessionLoading || loading then Loading
  else
    match guestData, weddingEvent with
    | Some guestData, Some _ =>
        if showUpload
        then match guestSession with
             | Some session => UploadForm (Spec.capture_props session guestData)
             | None => Broken
             end
        else if negb (has_unlocked_feed guestData)
        then Locked (photos_remaining guestData =? 0)
        else match guestSession with
             | Some session =>
                 FeedView (GuestSession.weddingEventId session)
                   (0 <? photos_remaining guestData)
             | None => Broken
             end
    | _, _ => Nothing
    end.

(** The page once [fetchData] has answered, the upload form closed. *)
Definition loaded (guest_fault event_fault : option string) (guestSession : GuestSession.t)
    (db : Db) : View :=
  match Guest.fetchData guest_fault event_fault guestSession db with
  | Some (guestData, weddingEvent) =>
      render false false (Some guestSession) (Some guestData) (Some weddingEvent) false
  | None => Loading
  end.

End GuestPage.

(** ** Row-level policies on reading photos, and the SQL helper functions *)
Module Policies.
Import Backend.

(** "Guests can view event photos":
    [EXISTS (SELECT 1 FROM guests WHERE id = auth.uid()
             AND wedding_event_id = photos.wedding_event_id
             AND has_unlocked_feed = true)] *)
Definition guest_may_view (uid : string) (db : Db) (p : Photo) : bool :=
  match guests db !! uid with
  | Some g => String.eqb (g_wedding_event_id g) (p_wedding_event_id p) && has_unlocked_feed g
  | None => false
  end.

(** "Couples can view event photos":
    [EXISTS (SELECT 1 FROM wedding_events WHERE id = wedding_event_id
             AND couple_user_id = auth.uid())] *)
Definition couple_may_view (uid : string) (db : Db) (p : Photo) : bool :=
  existsb (λ kv, String.eqb (e_id kv.2) (p_wedding_event_id p)
                 && String.eqb (couple_user_id kv.2) uid)
    (map_to_list (wedding_events db)).

(** The rows of [photos] a [SELECT] by session [uid] can see. *)
Definition visible_photos (uid : string) (db : Db) : list (string * Photo) :=
  List.filter (λ kv, guest_may_view uid db kv.2 || couple_may_view uid db kv.2)
    (map_to_list (photos db)).

(** [get_guest_by_token]:
    [SELECT id FROM guests WHERE session_token = session_token_value LIMIT 1] *)
Definition get_guest_by_token (session_token_value : string) (db : Db) : option string :=
  fst <$> List.find (λ kv, String.eqb (session_token kv.2) session_token_value)
            (map_to_list (guests db)).

(** [guest_belongs_to_event]:
    [SELECT EXISTS (SELECT 1 FROM guests
                    WHERE id = guest_uuid AND wedding_event_id = event_uuid)] *)
Definition guest_belongs_to_event (guest_uuid event_uuid : string) (db : Db) : bool :=
  match guests db !! guest_uuid with
  | Some g => String.eqb (g_wedding_event_id g) event_uuid
  | None => false
  end.

End Policies.

(** ** Pages that keep their state

    The guest page reads the guest row when it mounts and after its own
    upload ([fetchData]) and keeps it in [guestData]; the capture button and
    the upload form work on that copy.  The feed keeps the list it fetched,
    which only realtime events change, and takes [currentGuestId] from the
    page that mounts it.  A handler can therefore run on a copy that is
    older than the tables, for instance when the guest has the page open
    twice.  Here the copy is an argument of the action; [App.step] is the
    case of a page that has just loaded.  [SignIn] is the join of a guest
    over anonymous sign-in. *)
Module Tabs.
Import Backend.

(** The capture button and the upload form of a guest page whose state
    holds [guestData]. *)
Definition press_capture (env : PhotoUpload.Env) (guestSession : GuestSession.t)
    (guestData : Guest) (selectedFile : option PhotoUpload.File) (typed : list string)
    (db : Db) : Db * Guest.CaptureResult :=
  if Guest.can_capture guestData
  then
    let props :=
      PhotoUpload.mkProps (GuestSession.guestId guestSession)
        (GuestSession.weddingEventId guestSession)
        (photos_remaining guestData) (g_guest_name guestData) in
    let caption := fold_left PhotoUpload.onChange typed EmptyString in
    let '(db', r) := PhotoUpload.handleUpload env props selectedFile caption db in
    (db', Guest.Upload r)
  else (db, Guest.CaptureDisabled).

(** The trash button of entry [pid] of a feed whose state is [photos],
    mounted with [currentGuestId], then the confirmation dialog; [uid] is
    the principal of the session. *)
Definition press_delete (uid : string) (env : PhotoSwipeFeed.DeleteEnv)
    (currentGuestId : option string) (photos : list PhotoSwipeFeed.FeedPhoto)
    (pid : string) (db : Db) : Db * list string * PhotoSwipeFeed.DeleteResult :=
  match List.find (λ p : PhotoSwipeFeed.FeedPhoto, String.eqb p.1 pid) photos with
  | Some photo =>
      if PhotoSwipeFeed.isOwner currentGuestId photo
      then PhotoSwipeFeed.handleDeletePhoto uid env photos (Some photo.1) currentGuestId db
      else (db, [], PhotoSwipeFeed.NotStarted)
  | None => (db, [], PhotoSwipeFeed.NotStarted)
  end.

(** The pencil button of entry [pid], typing, then the check button. *)
Definition press_save (uid : string) (fault : option string)
    (currentGuestId : option string) (photos : list PhotoSwipeFeed.FeedPhoto)
    (pid : string) (typed : list string) (db : Db) : Db * PhotoSwipeFeed.SaveResult :=
  match List.find (λ p : PhotoSwipeFeed.FeedPhoto, String.eqb p.1 pid) photos with
  | Some photo =>
      if PhotoSwipeFeed.isOwner currentGuestId photo
      then
        let '(editingPhotoId, editCaption) := PhotoSwipeFeed.handleEditCaption photo in
        PhotoSwipeFeed.handleSaveCaption uid fault editingPhotoId
          (fold_left PhotoSwipeFeed.onChange typed editCaption) db
      else (db, PhotoSwipeFeed.NotEditing)
  | None => (db, PhotoSwipeFeed.NotEditing)
  end.

Inductive action :=
| Loaded (a : App.action)
| SignIn (env : AnonymousSession.Env) (weddingEventId : string) (guestName : option string)
| Capture (env : PhotoUpload.Env) (guestSession : GuestSession.t) (guestData : Guest)
    (selectedFile : option PhotoUpload.File) (typed : list string)
| DeletePhoto (uid : string) (env : PhotoSwipeFeed.DeleteEnv)
    (currentGuestId : option string) (photos : list PhotoSwipeFeed.FeedPhoto) (pid : string)
| EditCaption (uid : string) (fault : option string) (currentGuestId : option string)
    (photos : list PhotoSwipeFeed.FeedPhoto) (pid : string) (typed : list string).

Definition step (a : action) (db : Db) : Db :=
  match a with
  | Loaded a => App.step a db
  | SignIn env weddingEventId guestName =>
      (AnonymousSession.createGuestSession env weddingEventId guestName None None db).1.1.2
  | Capture env guestSession guestData selectedFile typed =>
      (press_capture env guestSession guestData selectedFile typed db).1
  | DeletePhoto uid env currentGuestId photos pid =>
      (press_delete uid env currentGuestId photos pid db).1.1
  | EditCaption uid fault currentGuestId photos pid typed =>
      (press_save uid fault currentGuestId photos pid typed db).1
  end.

Definition run (trace : list action) (db : Db) : Db := fold_left (λ d a, step a d) trace db.

(** The action is an upload for guest [g] that ends in "Moment captured!". *)
Definition is_upload_of (g : string) (a : action) (db : Db) : bool :=
  match a with
  | Loaded a => App.is_upload_of g a db
  | Capture env guestSession guestData selectedFile typed =>
      String.eqb (GuestSession.guestId guestSession) g
      && match (press_capture env guestSession guestData selectedFile typed db).2 with
         | Guest.Upload (PhotoUpload.Captured _) => true
         | _ => false
         end
  | _ => false
  end.

(** The action is a delete for the credit of guest [g] that ends in
    "Photo deleted". *)
Definition is_delete_of (g : string) (a : action) (db : Db) : bool :=
  match a with
  | Loaded a => App.is_delete_of g a db
  | DeletePhoto uid env currentGuestId photos pid =>
      bool_decide (currentGuestId = Some g)
      && match (press_delete uid env currentGuestId photos pid db).2 with
         | PhotoSwipeFeed.Deleted _ => true
         | _ => false
         end
  | _ => false
  end.

Fixpoint count (p : action → Db → bool) (trace : list action) (db : Db) : nat :=
  match trace with
  | [] => 0
  | a :: rest => ((if p a db then 1 else 0) + count p rest (step a db))%nat
  end.

Definition uploads (g : string) := count (is_upload_of g).
Definition deletes (g : string) := count (is_delete_of g).





End Tabs.

(** ** Vocabulary of the further properties *)
Module Spec2.
Import Backend.

(** A letter, a digit or a dash. *)
Definition file_safe (c : ascii) : bool :=
  Js.is_lower c || Js.is_upper c || Js.is_digit c || (N_of_ascii c =? 45)%N.

(** A letter, a digit or an underscore. *)
Definition word_char (c : ascii) : bool :=
  Js.is_lower c || Js.is_upper c || Js.is_digit c || (N_of_ascii c =? 95)%N.

Fixpoint string_all (p : ascii → bool) (s : string) : bool :=
  match s with
  | EmptyString => true
  | String c r => p c && string_all p r
  end.

Definition not_dot (c : ascii) : bool := negb (N_of_ascii c =? 46)%N.

(** The platform signs the URL of the photo's object. *)
Definition signed (env : DownloadAll.Env) (photo : Photo) : bool :=
  match DownloadAll.sign env (image_url photo) with
  | inl _ => false
  | inr _ => true
  end.

(** The feed state shows each photo row of the event once, as the table
    has it, and nothing else. *)
Definition mirrors (eventId : string) (feed : list Realtime.PhotoWithSignedUrl) (db : Db)
  : Prop :=
  NoDup (List.map Realtime.entry_id feed)
  ∧ ∀ pid row,
      (∃ url, Realtime.mkEntry pid row url ∈ feed)
      ↔ (photos db !! pid = Some row ∧ p_wedding_event_id row = eventId).

End Spec2.

(** ** Concrete runs of the further components *)
Module Scenario2.
Import Backend App Scenario.
Open Scope string_scope.

(** The tables after Ann's first photo. *)
Definition after_story : Db := run story Migrations.create_tables.

Definition sign_ok (path : string) : string + string :=
  inr ("https://signed.example/" +:+ path).

Definition sign_down (path : string) : string + string := inl "Object not found".

Definition feed_after_story : list Realtime.PhotoWithSignedUrl :=
  Realtime.fetchPhotos None sign_ok "event-1" after_story [].

Definition cake : Photo :=
  mkPhoto "event-1" "guest-1" "event-1/guest-1/2-cake.jpg" (Some "Ann") None
    "2026-06-01T19:00:00Z".

(** A second photo row of Ann arrives from another tab. *)
Definition with_cake : Db :=
  (photos_insert None "photo-2" "2026-06-01T19:00:00Z" "event-1" "guest-1"
     "event-1/guest-1/2-cake.jpg" (Some "Ann") None after_story).1.

Definition first_deleted : Db := (photos_delete None "guest-1" "photo-1" after_story).1.

Definition first_recaptioned : Db :=
  (photos_update_caption None "guest-1" "photo-1" (Some "Cheers") after_story).1.

Definition ann_props : PhotoUpload.Props :=
  PhotoUpload.mkProps "guest-1" "event-1" 10 (Some "Ann").

Definition getPublicUrl (path : string) : string :=
  "https://project.example/storage/v1/object/public/wedding-photos/" +:+ path.

Definition legacy_uploaded : Db :=
  (PhotoUploadV1.handleUpload getPublicUrl (upload_env "1") ann_props (Some photo_file)
     joined).1.

(** The platform signs nothing; every transfer would go through. *)
Definition download_env : DownloadAll.Env :=
  DownloadAll.mkEnv None sign_down (λ _, None) (λ _, "1780336800000").

Definition raw_photo : Photo :=
  mkPhoto "event-1" "guest-1" "event-1/guest-1/raw" (Some "Ann & Ben") None
    "2026-06-01T19:00:00Z".

Definition anon_env : AnonymousSession.Env :=
  AnonymousSession.mkEnv (inr (Some "anon-1")) "token-9" None.

Definition ben : AnonymousSession.GuestSession :=
  AnonymousSession.mkSession "anon-1" "event-1" (Some "Ben").

Definition ben_row : Guest := mkGuest "event-1" (Some "Ben") "token-9" 10 false.

Definition with_ben : Db := set_guests (insert "anon-1" ben_row) wedding.

(** The couple of the first wedding fills in the form a second time. *)
Definition second_event : WeddingEvent :=
  mkWeddingEvent "event-3" "couple-1" "Alice" "Bob" "2026-06-01".

Definition second_wedding : Db :=
  step (CreateEvent None (Some "couple-1") "event-3" "0.9k2qzd11" "Alice" "Bob" "2026-06-01")
    wedding.

Definition welcome : Toast :=
  mkToast "Welcome to Alice & Bob's wedding!" (Some "You have 10 photos to share.") Default.






(** Ann's guest row once her feed is unlocked, with [n] photos left. *)
Definition ann_unlocked (n : Z) : Guest := mkGuest "event-1" (Some "Ann") "token-1" n true.

(** Ann has the guest page open twice, both pages loaded while she had 10
    photos left; she uploads from the first page, then from the second. *)
Definition one_up : Db :=
  (Tabs.press_capture (upload_env "1") ann ann_row (Some photo_file) [] joined).1.

Definition two_up : Db :=
  (Tabs.press_capture (upload_env "2") ann ann_row (Some photo_file) [] one_up).1.

(** Nine photos later she has one left and again opens the page twice. *)
Definition nine_used : Db :=
  run (List.map capture_nth ["1"; "2"; "3"; "4"; "5"; "6"; "7"; "8"; "9"]) joined.

Definition ten_used : Db :=
  (Tabs.press_capture (upload_env "10") ann (ann_unlocked 1) (Some photo_file) []
     nine_used).1.

Definition eleven_used : Db :=
  (Tabs.press_capture (upload_env "11") ann (ann_unlocked 1) (Some photo_file) []
     ten_used).1.

(** With three photos in the feed and 7 left, Ann deletes the first photo
    and, the entry still being on her screen, presses its trash button
    once more. *)
Definition three_used : Db := run (List.map capture_nth ["1"; "2"; "3"]) joined.

Definition feed_of_three : list PhotoSwipeFeed.FeedPhoto :=
  PhotoSwipeFeed.fetchPhotos "event-1" three_used.

Definition pressed_once : Db :=
  (Tabs.press_delete "guest-1" delete_env (Some "guest-1") feed_of_three "photo-1"
     three_used).1.1.

Definition pressed_twice : Db :=
  (Tabs.press_delete "guest-1" delete_env (Some "guest-1") feed_of_three "photo-1"
     pressed_once).1.1.


Definition captured (n : Z) : Toast :=
  mkToast "Moment captured!" (Some (pretty n +:+ " photos remaining.")) Default.

End Scenario2.

(** * Properties *)

(** ** Strings *)
Section JsFacts.
Import Js.

Lemma white_space_not_lower c : is_white_space c = true → upper_char c = c.
Proof.
  destruct c as [[] [] [] [] [] [] [] []]; vm_compute; congruence.
Qed.

Lemma upper_char_idem c : upper_char (upper_char c) = upper_char c.
Proof. destruct c as [[] [] [] [] [] [] [] []]; reflexivity. Qed.

Lemma toUpperCase_idem s : toUpperCase (toUpperCase s) = toUpperCase s.
Proof. induction s as [|c s IH]; simpl; [done|]. by rewrite upper_char_idem, IH. Qed.

Lemma toUpperCase_app a b : toUpperCase (a +:+ b) = toUpperCase a +:+ toUpperCase b.
Proof. induction a as [|c a IH]; simpl; [done|]. by rewrite IH. Qed.

Lemma toUpperCase_white_space s : all_white_space s = true → toUpperCase s = s.
Proof.
  induction s as [|c s IH]; simpl; [done|].
  intros [Hc Hs]%andb_true_iff. by rewrite white_space_not_lower, IH.
Qed.

Lemma trimStart_length s : (String.length (trimStart s) ≤ String.length s)%nat.
Proof.
  induction s as [|c s IH]; simpl; [lia|].
  destruct (is_white_space c); simpl; lia.
Qed.

Lemma trimEnd_length s : (String.length (trimEnd s) ≤ String.length s)%nat.
Proof.
  induction s as [|c s IH]; simpl; [lia|].
  destruct (trimEnd s); simpl in *; [destruct (is_white_space c); simpl; lia | lia].
Qed.

Lemma trim_length s : (String.length (trim s) ≤ String.length s)%nat.
Proof.
  unfold trim. pose proof (trimEnd_length (trimStart s)). pose proof (trimStart_length s). lia.
Qed.

Lemma trimStart_white_space s : all_white_space s = true → trimStart s = EmptyString.
Proof.
  induction s as [|c s IH]; simpl; [done|].
  intros [Hc Hs]%andb_true_iff. rewrite Hc. auto.
Qed.

Lemma trimEnd_white_space s : all_white_space s = true → trimEnd s = EmptyString.
Proof.
  induction s as [|c s IH]; simpl; [done|].
  intros [Hc Hs]%andb_true_iff. by rewrite IH, Hc.
Qed.

Lemma trimStart_app_white_space l s :
  all_white_space l = true → trimStart (l +:+ s) = trimStart s.
Proof.
  induction l as [|c l IH]; simpl; [done|].
  intros [Hc Hl]%andb_true_iff. rewrite Hc. auto.
Qed.

Lemma trimEnd_app_white_space s r :
  all_white_space r = true → trimEnd (s +:+ r) = trimEnd s.
Proof.
  intros Hr. induction s as [|c s IH]; simpl.
  - by apply trimEnd_white_space.
  - by rewrite IH.
Qed.

(** A string that [trim] leaves alone is empty or starts with a visible
    character, and [trimEnd] leaves it alone too. *)
Lemma trim_fixed s :
  trim s = s →
  trimEnd s = s ∧ (s = EmptyString ∨ ∃ c r, s = String c r ∧ is_white_space c = false).
Proof.
  destruct s as [|c r]; [by auto|]. intros H.
  destruct (is_white_space c) eqn:Hc.
  - exfalso. unfold trim in H. simpl in H. rewrite Hc in H.
    pose proof (trimEnd_length (trimStart r)) as H1.
    pose proof (trimStart_length r) as H2.
    rewrite H in H1. simpl in H1. lia.
  - unfold trim in H. simpl in H. rewrite Hc in H. split; [done|]. right. eauto.
Qed.

Lemma trim_padded l s r :
  all_white_space l = true → all_white_space r = true → trim s = s →
  trim (l +:+ s +:+ r) = s.
Proof.
  intros Hl Hr [He Hs]%trim_fixed. unfold trim.
  rewrite trimStart_app_white_space by done.
  destruct Hs as [->|(c & s' & -> & Hc)].
  - simpl. by rewrite trimStart_white_space.
  - simpl trimStart. rewrite Hc.
    change (String c (s' +:+ r)) with (String c s' +:+ r).
    by rewrite trimEnd_app_white_space.
Qed.

End JsFacts.

(** ** Handler contracts *)

Ltac script_unfold :=
  unfold Script.try_catch, Script.bind, Script.await, Script.query, Script.throw_if,
    Script.console_error, Script.ret, Script.throw in *.

Section UploadContract.
Import Backend PhotoUpload Spec.

(** Every way [handleUpload] can end, with what it has written. *)
Lemma handleUpload_cases env props f caption db :
  let path := fileName env props f in
  let row := uploaded_row env props f caption in
  ∃ db' r, handleUpload env props (Some f) caption db = (db', r) ∧
    photos_remaining_default db' = photos_remaining_default db ∧
    wedding_events db' = wedding_events db ∧
    ((∃ t, r = Captured t ∧ upload_fault env = None ∧ photo_fault env = None
           ∧ update_fault env = None
           ∧ (path ∉ storage db) ∧ photos db !! photo_id env = None
           ∧ is_Some (guests db !! guestId props)
           ∧ photos_caption_length (caption_field caption) = true
           ∧ guests db' = alter (with_quota_unlocked (photosRemaining props - 1) true)
                            (guestId props) (guests db)
           ∧ photos db' = <[photo_id env := row]> (photos db)
           ∧ storage db' = {[path]} ∪ storage db)
     ∨ (∃ t, r = Failed t ∧ guests db' = guests db
           ∧ (photos db' = photos db
              ∨ (upload_fault env = None ∧ photo_fault env = None
                 ∧ is_Some (update_fault env)
                 ∧ photos db !! photo_id env = None
                 ∧ photos db' = <[photo_id env := row]> (photos db))))).
Proof.
  intros path row.
  unfold handleUpload, upload_body, storage_upload, photos_insert, guests_update_upload.
  script_unfold. simpl.
  destruct (upload_fault env) as [e|] eqn:Hu; simpl.
  { eexists _, _. split; [reflexivity|]. do 2 (split; [done|]). right. eexists. eauto 10. }
  case_bool_decide as Hst; simpl.
  { eexists _, _. split; [reflexivity|]. do 2 (split; [done|]). right. eexists. eauto 10. }
  destruct (photo_fault env) as [e|] eqn:Hp; simpl.
  { eexists _, _. split; [reflexivity|]. do 2 (split; [done|]). right. eexists. eauto 10. }
  destruct (photos_caption_length (caption_field caption)) eqn:Hc; simpl.
  2:{ eexists _, _. split; [reflexivity|]. do 2 (split; [done|]). right. eexists. eauto 10. }
  case_bool_decide as Hg; simpl.
  2:{ eexists _, _. split; [reflexivity|]. do 2 (split; [done|]). right. eexists. eauto 10. }
  case_bool_decide as He; simpl.
  2:{ eexists _, _. split; [reflexivity|]. do 2 (split; [done|]). right. eexists. eauto 10. }
  case_bool_decide as Hid; simpl.
  { eexists _, _. split; [reflexivity|]. do 2 (split; [done|]). right. eexists. eauto 10. }
  assert (photos db !! photo_id env = None) as Hnone.
  { destruct (photos db !! photo_id env) eqn:E; [|done]. exfalso. apply Hid. eauto. }
  destruct (update_fault env) as [e|] eqn:Hup; simpl.
  { eexists _, _. split; [reflexivity|]. do 2 (split; [done|]). right. eexists.
    split; [done|]. split; [done|]. right. repeat split; eauto. }
  eexists _, _. split; [reflexivity|]. do 2 (split; [done|]). left. eexists.
  repeat split; eauto.
Qed.

End UploadContract.

Section FeedContract.
Import Backend PhotoSwipeFeed Spec.

Lemma find_fetchPhotos eventId db pid (photo : FeedPhoto) :
  List.find (λ p : FeedPhoto, String.eqb p.1 pid) (fetchPhotos eventId db) = Some photo →
  photo.1 = pid ∧ photos db !! pid = Some photo.2 ∧ p_wedding_event_id photo.2 = eventId.
Proof.
  intros [Hin Heq]%find_some. apply String.eqb_eq in Heq.
  unfold fetchPhotos in Hin. apply filter_In in Hin as [Hin Hev].
  apply String.eqb_eq in Hev. apply list_elem_of_In in Hin.
  destruct photo as [k p]; simpl in *. subst k.
  apply elem_of_map_to_list in Hin. done.
Qed.

Lemma isOwner_true g (photo : FeedPhoto) :
  isOwner (Some g) photo = true → guest_id photo.2 = g ∧ g ≠ EmptyString.
Proof.
  unfold isOwner. intros [Ht Hd]%andb_true_iff.
  apply bool_decide_eq_true in Hd. split; [congruence|].
  destruct g; [discriminate|done].
Qed.

(** What the storage bucket, the console and the tables look like after
    [handleDeletePhoto], by the faults met. *)
Lemma handleDeletePhoto_eq uid env feed pid g db (photo : FeedPhoto) :
  pid ≠ EmptyString → g ≠ EmptyString →
  List.find (λ p : FeedPhoto, String.eqb p.1 pid) feed = Some photo →
  ∃ db' log r,
    handleDeletePhoto uid env feed (Some pid) (Some g) db = (db', log, r)
    ∧ photos_remaining_default db' = photos_remaining_default db
    ∧ wedding_events db' = wedding_events db
    ∧ storage db' = match storage_fault env with
                    | Some _ => storage db
                    | None => storage db ∖ list_to_set [image_url photo.2]
                    end
    ∧ log = match storage_fault env with
            | Some e => ["Storage delete error:" +:+ " " +:+ e]
            | None => []
            end
    ∧ match db_fault env with
      | Some e =>
          r = DeleteFailed (mkToast "Failed to delete photo" (Some e) Destructive)
          ∧ photos db' = photos db ∧ guests db' = guests db
      | None =>
          r = Deleted (mkToast "Photo deleted"
                         (Some "Your photo credit has been restored."%string) Default)
          ∧ photos db' = deleted_photos uid pid db
          ∧ guests db' =
              match guest_fetch_fault env, guests db !! g, guest_update_fault env with
              | None, Some gd, None =>
                  alter (with_quota (Z.min (photos_remaining gd + 1) 10)) g (guests db)
              | _, _, _ => guests db
              end
      end.
Proof.
  intros Hpid Hg Hfind. destruct pid as [|c pid]; [done|]. destruct g as [|c' g]; [done|].
  unfold handleDeletePhoto. rewrite Hfind.
  unfold delete_body, storage_remove, photos_delete, guests_select_single,
    guests_update_quota, deleted_photos.
  script_unfold.
  destruct (storage_fault env) as [es|]; simpl;
    (destruct (db_fault env) as [ed|]; simpl; [by eauto 12|]);
    (destruct (photos db !! String c pid) as [p|] eqn:Hp; simpl;
     [destruct (String.eqb (guest_id p) uid); simpl|]);
    (destruct (guest_fetch_fault env) as [ef|]; simpl; [by eauto 12|]);
    (destruct (guests db !! String c' g) as [gd|] eqn:Hgd; simpl; [|by eauto 12]);
    (destruct (guest_update_fault env) as [eu|]; simpl; by eauto 12).
Qed.

End FeedContract.

(** ** Delete, caption edit and caption length *)
Section LocalProperties.
Import Backend PhotoSwipeFeed Spec.

Lemma alter_lookup_insert {A} (f : A → A) (m : gmap string A) i x :
  m !! i = Some x → alter f i m = <[i := f x]> m.
Proof.
  intros H. apply map_eq. intros j. destruct (decide (i = j)) as [->|Hne].
  - by rewrite lookup_alter_eq, lookup_insert_eq, H.
  - by rewrite lookup_alter_ne, lookup_insert_ne.
Qed.

Lemma deleted_photos_owner uid pid db p :
  photos db !! pid = Some p → guest_id p = uid →
  deleted_photos uid pid db = delete pid (photos db).
Proof.
  intros Hp Ho. unfold deleted_photos. rewrite Hp.
  by rewrite (proj2 (String.eqb_eq _ _) Ho).
Qed.


(** C8: when the storage delete fails during a photo removal the error is
    written to the console and nothing else happens about it: the photo row
    is deleted all the same, the operation ends with "Photo deleted", and
    the bucket still holds every object it held. *)
Theorem storage_delete_failure_is_ignored uid env feed pid g db (photo : FeedPhoto) e :
  pid ≠ EmptyString → g ≠ EmptyString →
  List.find (λ p : FeedPhoto, String.eqb p.1 pid) feed = Some photo →
  photos db !! pid = Some photo.2 →
  guest_id photo.2 = uid →
  storage_fault env = Some e → db_fault env = None →
  ∃ db' t,
    handleDeletePhoto uid env feed (Some pid) (Some g) db
    = (db', ["Storage delete error: " +:+ e], Deleted t)
    ∧ photos db' = delete pid (photos db)
    ∧ photos db' !! pid = None
    ∧ storage db' = storage db.
Proof.
  intros Hpid Hg Hfind Hp Ho Hs Hd.
  destruct (handleDeletePhoto_eq uid env feed pid g db photo Hpid Hg Hfind)
    as (db' & log & r & Heq & _ & _ & Hst & Hlog & Hrest).
  rewrite Hs in Hst, Hlog. rewrite Hd in Hrest. destruct Hrest as (-> & Hph & _).
  rewrite (deleted_photos_owner _ _ _ _ Hp Ho) in Hph. subst log.
  eexists db', _. split; [exact Heq|]. split; [done|]. split; [|done].
  rewrite Hph. apply lookup_delete_eq.
Qed.

(** C10: when the photo row has been deleted and the read of the guest's
    [photos_remaining] then fails, no quota is written: the guests table is
    what it was, and the operation still ends with the toast "Photo deleted"
    / "Your photo credit has been restored.". *)
Theorem failed_quota_read_skips_restore uid env feed pid g db (photo : FeedPhoto) e :
  pid ≠ EmptyString → g ≠ EmptyString →
  List.find (λ p : FeedPhoto, String.eqb p.1 pid) feed = Some photo →
  photos db !! pid = Some photo.2 →
  guest_id photo.2 = uid →
  db_fault env = None →
  (guests_select_single (guest_fetch_fault env) g db).2 = Some e →
  ∃ db' log,
    handleDeletePhoto uid env feed (Some pid) (Some g) db
    = (db', log,
       Deleted (mkToast "Photo deleted"
                  (Some "Your photo credit has been restored."%string) Default))
    ∧ photos db' !! pid = None
    ∧ guests db' = guests db.
Proof.
  intros Hpid Hg Hfind Hp Ho Hd Hread.
  destruct (handleDeletePhoto_eq uid env feed pid g db photo Hpid Hg Hfind)
    as (db' & log & r & Heq & _ & _ & _ & _ & Hrest).
  rewrite Hd in Hrest. destruct Hrest as (-> & Hph & Hgu).
  rewrite (deleted_photos_owner _ _ _ _ Hp Ho) in Hph.
  exists db', log. split; [done|]. split; [rewrite Hph; apply lookup_delete_eq|].
  unfold guests_select_single in Hread.
  destruct (guest_fetch_fault env); [done|].
  destruct (guests db !! g); [discriminate|done].
Qed.

Lemma caption_field_ok editCaption :
  (String.length editCaption ≤ MAX_CAPTION_LENGTH)%nat →
  photos_caption_length (caption_field editCaption) = true.
Proof.
  intros Hlen. unfold caption_field, photos_caption_length.
  pose proof (trim_length editCaption) as Ht.
  destruct (0 <? String.length (Js.trim editCaption))%nat eqn:Hpos; [|done].
  apply Nat.ltb_lt in Hpos. unfold MAX_CAPTION_LENGTH in Hlen.
  apply andb_true_iff. split; apply Nat.leb_le; lia.
Qed.

(** C9: saving a caption leaves the guests table (so [photos_remaining] and
    [has_unlocked_feed] of every guest), the storage bucket, the events and
    the column default as they were, leaves every other photo row as it
    was, and changes nothing but the caption in the row it edits; when the
    editor's session owns the photo and the update goes through, the row
    becomes the old row with the trimmed caption. *)
Theorem caption_edit_changes_only_the_caption uid fault editingPhotoId editCaption db :
  let db' := (handleSaveCaption uid fault editingPhotoId editCaption db).1 in
  guests db' = guests db
  ∧ storage db' = storage db
  ∧ wedding_events db' = wedding_events db
  ∧ photos_remaining_default db' = photos_remaining_default db
  ∧ (∀ pid, Some pid ≠ editingPhotoId → photos db' !! pid = photos db !! pid)
  ∧ (∀ pid, ∃ c, photos db' !! pid = with_caption c <$> photos db !! pid)
  ∧ (∀ c p, p_wedding_event_id (with_caption c p) = p_wedding_event_id p
            ∧ guest_id (with_caption c p) = guest_id p
            ∧ image_url (with_caption c p) = image_url p
            ∧ p_guest_name (with_caption c p) = p_guest_name p
            ∧ captured_at (with_caption c p) = captured_at p)
  ∧ (∀ pid p,
       editingPhotoId = Some pid → pid ≠ EmptyString →
       photos db !! pid = Some p → guest_id p = uid → fault = None →
       (String.length editCaption ≤ MAX_CAPTION_LENGTH)%nat →
       photos db' !! pid = Some (with_caption (caption_field editCaption) p)).
Proof.
  assert (∀ pid, ∃ c, photos db !! pid = with_caption c <$> photos db !! pid) as Hsame.
  { intros pid. destruct (photos db !! pid) as [p|]; [|by exists None].
    exists (caption p). by destruct p. }
  unfold handleSaveCaption, photos_update_caption.
  destruct editingPhotoId as [[|c pid]|]; simpl;
    [repeat split; try done; intros; congruence| |repeat split; try done; intros; congruence].
  destruct fault as [e|]; simpl; [repeat split; try done; intros; congruence|].
  destruct (photos db !! String c pid) as [p|] eqn:Hp; simpl;
    [|repeat split; try done; intros; congruence].
  destruct (String.eqb (guest_id p) uid) eqn:Ho; simpl;
    [|repeat split; try done; intros pid' p' [= <-] _ Hp' Hu;
      rewrite Hp in Hp'; injection Hp' as <-; by apply String.eqb_neq in Ho].
  destruct (photos_caption_length (caption_field editCaption)) eqn:Hc; simpl.
  - repeat split; try done.
    + intros pid' Hne. apply lookup_insert_ne. congruence.
    + intros pid'. destruct (decide (String c pid = pid')) as [<-|Hne].
      * exists (caption_field editCaption). by rewrite lookup_insert_eq, Hp.
      * rewrite lookup_insert_ne by done. apply Hsame.
    + intros pid' p' [= <-] _ Hp' _ _ _. rewrite lookup_insert_eq. congruence.
  - repeat split; try done.
    intros pid' p' _ _ _ _ _ Hlen. by rewrite caption_field_ok in Hc.
Qed.

End LocalProperties.

(** ** Caption length *)
Section CaptionLength.
Import Backend Spec.

Lemma upload_onChange_length typed init :
  (String.length init ≤ 150)%nat →
  (String.length (fold_left PhotoUpload.onChange typed init) ≤ 150)%nat.
Proof.
  revert init. induction typed as [|v typed IH]; intros init Hinit; simpl; [done|].
  apply IH. unfold PhotoUpload.onChange, PhotoUpload.MAX_CAPTION_LENGTH.
  destruct (String.length v <=? 150)%nat eqn:Hv; [by apply Nat.leb_le|done].
Qed.

Lemma feed_onChange_length typed init :
  (String.length init ≤ 150)%nat →
  (String.length (fold_left PhotoSwipeFeed.onChange typed init) ≤ 150)%nat.
Proof.
  revert init. induction typed as [|v typed IH]; intros init Hinit; simpl; [done|].
  apply IH. unfold PhotoSwipeFeed.onChange, PhotoSwipeFeed.MAX_CAPTION_LENGTH.
  destruct (String.length v <=? 150)%nat eqn:Hv; [by apply Nat.leb_le|done].
Qed.

Lemma caption_length_refused s :
  ¬ (1 ≤ String.length s ≤ 150)%nat → photos_caption_length (Some s) = false.
Proof.
  intros H. unfold photos_caption_length. apply andb_false_iff.
  destruct (Nat.leb_spec 1 (String.length s)); [|by left].
  right. apply Nat.leb_gt. lia.
Qed.

(** C6: a non-null caption whose length is outside 1..150 is rejected.
    The database refuses it on insert and on update (the row is not
    written and an error is returned); the client never sends one: the two
    caption boxes never hold more than 150 characters, what is sent is the
    trimmed text, and a text that trims to nothing is sent as null. *)
Theorem caption_length_outside_1_150_is_rejected :
  (∀ fault new_id now ev g url name s db,
      ¬ (1 ≤ String.length s ≤ 150)%nat →
      ∃ e, photos_insert fault new_id now ev g url name (Some s) db = (db, Some e))
  ∧ (∀ fault uid pid s db,
      ¬ (1 ≤ String.length s ≤ 150)%nat →
      (photos_update_caption fault uid pid (Some s) db).1 = db
      ∧ (∀ p, photos db !! pid = Some p → guest_id p = uid →
              is_Some (photos_update_caption fault uid pid (Some s) db).2))
  ∧ (∀ typed,
      photos_caption_length
        (PhotoUpload.caption_field (fold_left PhotoUpload.onChange typed EmptyString)) = true)
  ∧ (∀ typed (photo : PhotoSwipeFeed.FeedPhoto),
      photos_caption_length (caption photo.2) = true →
      photos_caption_length
        (PhotoSwipeFeed.caption_field
           (fold_left PhotoSwipeFeed.onChange typed
              (PhotoSwipeFeed.handleEditCaption photo).2)) = true)
  ∧ (∀ text, Js.trim text = EmptyString →
      PhotoUpload.caption_field text = None ∧ PhotoSwipeFeed.caption_field text = None).
Proof.
  repeat split.
  - intros fault new_id now ev g url name s db Hs.
    unfold photos_insert. destruct fault; [by eauto|].
    rewrite (caption_length_refused s Hs). simpl. by eauto.
  - unfold photos_update_caption. destruct fault; [done|].
    destruct (photos db !! pid) as [p|]; [|done].
    destruct (String.eqb (guest_id p) uid); [|done].
    by rewrite (caption_length_refused s).
  - intros p Hp Ho. unfold photos_update_caption. destruct fault; [by eauto|].
    rewrite Hp, (proj2 (String.eqb_eq _ _) Ho), (caption_length_refused s) by done.
    by eauto.
  - intros typed. apply caption_field_ok.
    apply feed_onChange_length || apply upload_onChange_length. simpl. lia.
  - intros typed photo Hc. apply caption_field_ok. apply feed_onChange_length.
    simpl. unfold photos_caption_length in Hc.
    destruct (caption photo.2) as [s|]; simpl; [|lia].
    apply andb_true_iff in Hc as [_ Hle]. by apply Nat.leb_le.
  - unfold PhotoUpload.caption_field. by rewrite H.
  - unfold PhotoSwipeFeed.caption_field. by rewrite H.
Qed.

End CaptionLength.

(** ** Joining by code *)
Section JoinByCode.
Import Backend JoinWedding Spec.

Lemma event_by_id_stored db code event :
  wedding_events db !! code = Some event → is_Some (event_by_id db (e_id event)).
Proof.
  intros H. unfold event_by_id.
  destruct (List.find _ _) as [row|] eqn:Hfind; [by eauto|]. exfalso.
  apply elem_of_map_to_list, list_elem_of_In in H.
  pose proof (find_none _ _ Hfind _ H) as Hno. simpl in Hno.
  by rewrite String.eqb_refl in Hno.
Qed.

Lemma normalize_padded input code :
  Js.toUpperCase code = code → Js.trim code = code →
  differs_in_case_and_padding input code → normalize input = code.
Proof.
  intros Hup Htrim (l & core & r & -> & Hl & Hr & Hcore).
  unfold normalize. rewrite !toUpperCase_app.
  rewrite (toUpperCase_white_space l), (toUpperCase_white_space r) by done.
  rewrite Hcore, Hup. by apply trim_padded.
Qed.

(** Whatever the names, the code the dashboard stores is in upper case;
    only white space at its start can keep the lookup from finding it. *)
Lemma generateEventCode_upper coupleName partnerName random36 :
  Js.toUpperCase (Dashboard.generateEventCode coupleName partnerName random36)
  = Dashboard.generateEventCode coupleName partnerName random36.
Proof.
  unfold Dashboard.generateEventCode.
  rewrite !toUpperCase_app, !toUpperCase_idem. reflexivity.
Qed.

(** X24: the join lookup compares the stored codes with the input in upper
    case and without surrounding white space.  So for a stored code that
    is itself in upper case and has no surrounding white space, every
    ASCII input that differs from it only in letter case or in surrounding
    white space finds that event; the join is never answered "Event not
    found", a guest who is let in is a guest of that event, and the guest
    is let in whenever the guest row can be inserted. *)
Theorem join_by_code_ignores_case_and_padding env db code event input guestName :
  wedding_events db !! code = Some event →
  Js.toUpperCase code = code →
  Js.trim code = code →
  Js.is_ascii input = true →
  differs_in_case_and_padding input code →
  event_fault env = None →
  normalize input = code
  ∧ events_select_by_code (event_fault env) (normalize input) db = (Some event, None)
  ∧ (∀ db' t, handleJoin env input guestName db ≠ (db', EventNotFound t))
  ∧ (∀ db' session t,
       handleJoin env input guestName db = (db', Joined session t) →
       GuestSession.weddingEventId session = e_id event
       ∧ ∃ row, guests db' !! GuestSession.guestId session = Some row
                ∧ g_wedding_event_id row = e_id event)
  ∧ (guest_fault env = None →
     token_taken db (random_uuid env) = false →
     guests db !! guest_uuid env = None →
     ∃ db' t,
       handleJoin env input guestName db
       = (db',
          Joined (GuestSession.mk (guest_uuid env) (e_id event) (random_uuid env)
                    (Js.or_null (Js.trim guestName))) t)).
Proof.
  intros Hev Hup Htrim _ Hdiff Hfault.
  pose proof (normalize_padded input code Hup Htrim Hdiff) as Hnorm.
  pose proof (event_by_id_stored db code event Hev) as Hfk.
  assert (events_select_by_code (event_fault env) (normalize input) db = (Some event, None))
    as Hsel by (unfold events_select_by_code; by rewrite Hfault, Hnorm, Hev).
  split; [done|]. split; [done|].
  unfold handleJoin. rewrite Hsel. unfold guests_insert.
  destruct (guest_fault env) as [e|]; simpl.
  { repeat split; try done. }
  rewrite (bool_decide_eq_true_2 _ Hfk). simpl.
  destruct (token_taken db (random_uuid env)); simpl.
  { repeat split; try done. }
  case_bool_decide as Hid; simpl.
  { repeat split; try done. intros _ _ Hnone. rewrite Hnone in Hid. by destruct Hid. }
  split; [done|]. split; [|by eauto].
  intros db' session t [= <- <- _]. simpl. rewrite lookup_insert_eq. by eauto.
Qed.

(** C7: the dashboard builds the event code from the first three
    characters of the names in upper case, without trimming them, while the
    join form trims what the guest types.  A couple name typed with a
    leading blank gives a stored code that starts with a blank; typing
    exactly that code into the join form, or the same code in lower case
    between blanks, is answered "Event not found": the lookup asks for
    "ALBOB-4FZY", which is not the stored code. *)
Lemma join_fails_on_a_code_with_a_leading_blank :
  Dashboard.handleCreateEvent None (Some "couple-2"%string) "event-2" "0.4fzyo82mvyr"
    " Al" "Bob" "2026-07-01" Migrations.create_tables
  = (Scenario.padded_wedding,
     Dashboard.Created " ALBOB-4FZY"
       (mkToast "Wedding created!" (Some "Your wedding photo experience is ready."%string)
          Default))
  ∧ wedding_events Scenario.padded_wedding !! " ALBOB-4FZY"%string
    = Some (mkWeddingEvent "event-2" "couple-2" " Al" "Bob" "2026-07-01")
  ∧ differs_in_case_and_padding " ALBOB-4FZY" " ALBOB-4FZY"
  ∧ differs_in_case_and_padding "   albob-4fzy " " ALBOB-4FZY"
  ∧ normalize " ALBOB-4FZY" = "ALBOB-4FZY"%string
  ∧ normalize "   albob-4fzy " = "ALBOB-4FZY"%string
  ∧ wedding_events Scenario.padded_wedding !! "ALBOB-4FZY"%string = None
  ∧ handleJoin Scenario.join_env " ALBOB-4FZY" "Ann" Scenario.padded_wedding
    = (Scenario.padded_wedding,
       EventNotFound
         (mkToast "Event not found"
            (Some "Please check your event code and try again."%string) Destructive))
  ∧ handleJoin Scenario.join_env "   albob-4fzy " "Ann" Scenario.padded_wedding
    = (Scenario.padded_wedding,
       EventNotFound
         (mkToast "Event not found"
            (Some "Please check your event code and try again."%string) Destructive)).
Proof.
  split; [vm_compute; reflexivity|]. split; [vm_compute; reflexivity|]. split.
  { exists EmptyString, " ALBOB-4FZY"%string, EmptyString. by vm_compute. }
  split.
  { exists "  "%string, " albob-4fzy"%string, " "%string. by vm_compute. }
  do 4 (split; [vm_compute; reflexivity|]). vm_compute. reflexivity.
Qed.

End JoinByCode.

(** ** What one action does to the guests and photos tables *)
Section ActionEffects.
Import Backend App Spec.

Lemma fetchData_Some gf ef guestSession db guestData weddingEvent :
  Guest.fetchData gf ef guestSession db = Some (guestData, weddingEvent) →
  gf = None ∧ ef = None ∧ guests db !! GuestSession.guestId guestSession = Some guestData.
Proof.
  unfold Guest.fetchData, guests_select_single, events_select_single.
  destruct gf; [done|]. destruct (guests db !! _) as [gd|]; [|done].
  destruct ef; [done|]. destruct (event_by_id db _); [|done].
  by intros [= <- <-].
Qed.

Lemma capture_cases gf ef env guestSession file typed db :
  let g := GuestSession.guestId guestSession in
  let caption := fold_left PhotoUpload.onChange typed EmptyString in
  ∃ db' r,
    Guest.capture gf ef env guestSession file typed db = (db', r)
    ∧ photos_remaining_default db' = photos_remaining_default db
    ∧ wedding_events db' = wedding_events db
    ∧ ((db' = db
        ∧ (r = Guest.SessionExpired
           ∨ (r = Guest.Upload PhotoUpload.NoFile
              ∧ ∃ gd, guests db !! g = Some gd ∧ Guest.can_capture gd = true)
           ∨ (r = Guest.CaptureDisabled
              ∧ ∃ gd, guests db !! g = Some gd ∧ Guest.can_capture gd = false)))
       ∨ (∃ gd f,
            guests db !! g = Some gd ∧ Guest.can_capture gd = true ∧ file = Some f
            ∧ ((∃ t, r = Guest.Upload (PhotoUpload.Captured t)
                     ∧ PhotoUpload.upload_fault env = None
                     ∧ PhotoUpload.photo_fault env = None
                     ∧ photos db !! PhotoUpload.photo_id env = None
                     ∧ guests db'
                       = <[g := with_quota_unlocked (photos_remaining gd - 1) true gd]>
                           (guests db)
                     ∧ photos db'
                       = <[PhotoUpload.photo_id env :=
                             uploaded_row env (capture_props guestSession gd) f caption]>
                           (photos db))
               ∨ (∃ t, r = Guest.Upload (PhotoUpload.Failed t)
                       ∧ guests db' = guests db
                       ∧ (photos db' = photos db
                          ∨ (PhotoUpload.upload_fault env = None
                             ∧ PhotoUpload.photo_fault env = None
                             ∧ is_Some (PhotoUpload.update_fault env)
                             ∧ photos db !! PhotoUpload.photo_id env = None
                             ∧ photos db'
                               = <[PhotoUpload.photo_id env :=
                                     uploaded_row env (capture_props guestSession gd) f
                                       caption]> (photos db))))))).
Proof.
  intros g caption. unfold Guest.capture.
  destruct (Guest.fetchData gf ef guestSession db) as [[gd ev]|] eqn:Hfetch;
    [|by eauto 10].
  apply fetchData_Some in Hfetch as (-> & -> & Hgd).
  destruct (Guest.can_capture gd) eqn:Hopen.
  2:{ eexists _, _. split; [reflexivity|]. do 2 (split; [done|]). left. split; [done|].
      right. right. split; [done|]. by exists gd. }
  destruct file as [f|].
  2:{ eexists _, _. split; [reflexivity|]. do 2 (split; [done|]). left. split; [done|].
      right. left. split; [done|]. by exists gd. }
  destruct (handleUpload_cases env (capture_props guestSession gd) f caption db)
    as (db' & r & Heq & Hdef & Hev & Hcases).
  fold (capture_props guestSession gd). fold caption. rewrite Heq.
  exists db', (Guest.Upload r). do 3 (split; [done|]). right. exists gd, f.
  do 3 (split; [done|]).
  destruct Hcases as [(t & -> & Hu & Hp & _ & _ & Hfresh & _ & _ & Hgu & Hph & _)
                     |(t & -> & Hgu & Hph)].
  - left. exists t. do 4 (split; [done|]). split; [|done].
    rewrite Hgu. simpl. by apply alter_lookup_insert.
  - right. exists t. by eauto.
Qed.

Lemma delete_photo_cases env guestSession pid db :
  let g := GuestSession.guestId guestSession in
  ∃ db' log r,
    Feed.delete_photo env guestSession pid db = (db', log, r)
    ∧ photos_remaining_default db' = photos_remaining_default db
    ∧ ((db' = db ∧ r = PhotoSwipeFeed.NotStarted)
       ∨ (∃ p, photos db !! pid = Some p ∧ guest_id p = g
               ∧ match PhotoSwipeFeed.db_fault env with
                 | Some e =>
                     (∃ t, r = PhotoSwipeFeed.DeleteFailed t)
                     ∧ photos db' = photos db ∧ guests db' = guests db
                 | None =>
                     (∃ t, r = PhotoSwipeFeed.Deleted t)
                     ∧ photos db' = delete pid (photos db)
                     ∧ guests db' =
                         match PhotoSwipeFeed.guest_fetch_fault env, guests db !! g,
                               PhotoSwipeFeed.guest_update_fault env with
                         | None, Some gd, None =>
                             <[g := with_quota (Z.min (photos_remaining gd + 1) 10) gd]>
                               (guests db)
                         | _, _, _ => guests db
                         end
                 end)).
Proof.
  intros g. unfold Feed.delete_photo.
  destruct (List.find _ _) as [photo|] eqn:Hfind; [|by eauto 10].
  destruct (PhotoSwipeFeed.isOwner _ photo) eqn:Hown; [|by eauto 10].
  apply isOwner_true in Hown as [Hown Hg].
  pose proof Hfind as (Hid & Hp & _)%find_fetchPhotos.
  rewrite Hid.
  destruct (decide (pid = EmptyString)) as [->|Hpid]; [by eauto 10|].
  destruct (handleDeletePhoto_eq g env _ pid g db photo Hpid Hg Hfind)
    as (db' & log & r & Heq & Hdef & _ & _ & _ & Hrest).
  fold g. rewrite Heq. exists db', log, r. do 2 (split; [done|]). right.
  exists photo.2. do 2 (split; [done|]).
  rewrite (deleted_photos_owner g pid db photo.2 Hp Hown) in Hrest.
  destruct (PhotoSwipeFeed.db_fault env); destruct Hrest as (-> & Hph & Hgu).
  - by eauto.
  - split; [by eauto|]. split; [done|]. rewrite Hgu.
    destruct (PhotoSwipeFeed.guest_fetch_fault env); [done|].
    destruct (guests db !! g) as [gd|] eqn:Hgd; [|done].
    destruct (PhotoSwipeFeed.guest_update_fault env); [done|].
    by apply alter_lookup_insert.
Qed.

Lemma edit_caption_cases fault guestSession pid typed db :
  let db' := (Feed.edit_caption fault guestSession pid typed db).1 in
  photos_remaining_default db' = photos_remaining_default db
  ∧ guests db' = guests db
  ∧ (photos db' = photos db
     ∨ ∃ p c, photos db !! pid = Some p
              ∧ photos db' = <[pid := with_caption c p]> (photos db)).
Proof.
  unfold Feed.edit_caption.
  destruct (List.find _ _) as [photo|] eqn:Hfind; [|by auto].
  destruct (PhotoSwipeFeed.isOwner _ photo) eqn:Hown; [|by auto].
  pose proof Hfind as (Hid & Hp & _)%find_fetchPhotos.
  unfold PhotoSwipeFeed.handleEditCaption, PhotoSwipeFeed.handleSaveCaption,
    photos_update_caption.
  rewrite Hid. destruct pid as [|c pid]; [by auto|].
  destruct fault; [by auto|]. rewrite Hp.
  destruct (String.eqb _ _); [|by auto].
  destruct (photos_caption_length _); [|by auto].
  simpl. split; [done|]. split; [done|]. right. by eauto.
Qed.

Lemma join_cases env eventCode guestName db :
  let db' := (JoinWedding.handleJoin env eventCode guestName db).1 in
  photos_remaining_default db' = photos_remaining_default db
  ∧ photos db' = photos db
  ∧ (guests db' = guests db
     ∨ ∃ row, guests db !! JoinWedding.guest_uuid env = None
              ∧ photos_remaining row = photos_remaining_default db
              ∧ has_unlocked_feed row = false
              ∧ guests db' = <[JoinWedding.guest_uuid env := row]> (guests db)).
Proof.
  unfold JoinWedding.handleJoin, events_select_by_code, guests_insert.
  destruct (JoinWedding.event_fault env); [by auto|].
  destruct (wedding_events db !! _) as [event|]; [|by auto].
  destruct (JoinWedding.guest_fault env); [by auto|].
  destruct (negb _); [by auto|]. destruct (token_taken _ _); [by auto|].
  case_bool_decide as Hid; [by auto|]. simpl.
  split; [done|]. split; [done|]. right. eexists. split; [|by repeat split].
  destruct (guests db !! JoinWedding.guest_uuid env) eqn:E; [|done].
  exfalso. apply Hid. by eauto.
Qed.

Lemma create_event_cases fault user new_id random36 coupleName partnerName weddingDate db :
  let db' := (Dashboard.handleCreateEvent fault user new_id random36 coupleName
                partnerName weddingDate db).1 in
  photos_remaining_default db' = photos_remaining_default db
  ∧ photos db' = photos db ∧ guests db' = guests db.
Proof.
  unfold Dashboard.handleCreateEvent, events_insert.
  destruct user; [|done]. destruct fault; [done|].
  destruct (bool_decide _); [done|]. destruct (bool_decide _); done.
Qed.

End ActionEffects.

(** ** Handlers on pages that keep their state *)
Section PageState.
Import Backend Spec Tabs.

(** [Guest.capture] is the capture button on a page that has just loaded,
    and [Feed.delete_photo] the trash button on a feed that has just been
    fetched and is mounted with the session's guest. *)
Lemma capture_on_a_loaded_page gf ef env guestSession file typed db :
  Guest.capture gf ef env guestSession file typed db
  = match Guest.fetchData gf ef guestSession db with
    | Some (guestData, _) => press_capture env guestSession guestData file typed db
    | None => (db, Guest.SessionExpired)
    end.
Proof.
  unfold Guest.capture, press_capture.
  by destruct (Guest.fetchData gf ef guestSession db) as [[gd ev]|].
Qed.

Lemma delete_on_a_fetched_feed env guestSession pid db :
  Feed.delete_photo env guestSession pid db
  = press_delete (GuestSession.guestId guestSession) env
      (Some (GuestSession.guestId guestSession))
      (PhotoSwipeFeed.fetchPhotos (GuestSession.weddingEventId guestSession) db) pid db.
Proof. reflexivity. Qed.





End PageState.

(** ** The quota never goes below zero *)
Section QuotaInvariant.
Import Backend App Spec.





End QuotaInvariant.

(** ** The unlock flag *)
Section UnlockFlag.
Import Backend App Spec.

(** The shape of the flag invariant for one step: [guests'] is the guests
    table after the step, [up] tells whether the step was an upload of [g]
    that ended in "Moment captured!". *)
Lemma flag_unchanged (g : string) (db : Db) :
  match guests db !! g with
  | Some gd' =>
      has_unlocked_feed gd' = true
      ↔ (∃ gd, guests db !! g = Some gd ∧ has_unlocked_feed gd = true) ∨ false = true
  | None => guests db !! g = None ∧ false = false
  end.
Proof.
  destruct (guests db !! g) as [gd|] eqn:Hgd; [|done]. split.
  - intros H. left. by exists gd.
  - intros [(gd0 & [= <-] & H)|?]; done.
Qed.

Lemma flag_step g a db :
  match guests (step a db) !! g with
  | Some gd' =>
      has_unlocked_feed gd' = true
      ↔ (∃ gd, guests db !! g = Some gd ∧ has_unlocked_feed gd = true)
        ∨ is_upload_of g a db = true
  | None => guests db !! g = None ∧ is_upload_of g a db = false
  end.
Proof.
  destruct a as [fault user new_id r36 cn pn wd|env code name
    |gf ef env s file typed|env s pid|fault s pid typed|]; unfold step, is_upload_of.
  - pose proof (create_event_cases fault user new_id r36 cn pn wd db) as H.
    cbv zeta in H. destruct H as (_ & _ & ->). apply flag_unchanged.
  - pose proof (join_cases env code name db) as H. cbv zeta in H.
    destruct H as (_ & _ & [->|(row & Hfresh & _ & Hflag & ->)]);
      [apply flag_unchanged|].
    rewrite lookup_insert. case_decide as Hg; [subst g|apply flag_unchanged].
    rewrite Hflag, Hfresh. split; [done|]. by intros [(? & ? & ?)|?].
  - pose proof (capture_cases gf ef env s file typed db) as H. cbv zeta in H.
    destruct H as (db' & r & -> & _ & _ & Hcases). simpl.
    destruct Hcases as [[-> Hr]|(gd0 & f & Hgd0 & _ & _ & Hrest)].
    { assert (match r with
              | Guest.Upload (PhotoUpload.Captured _) => true
              | _ => false
              end = false) as -> by (by destruct Hr as [->|[[-> _]|[-> _]]]).
      rewrite andb_false_r. apply flag_unchanged. }
    destruct Hrest as [(t & -> & _ & _ & _ & -> & _)|(t & -> & -> & _)].
    + rewrite andb_true_r, lookup_insert.
      destruct (String.eqb_spec (GuestSession.guestId s) g) as [->|Hne].
      * rewrite decide_True by done. simpl. split; [by right|done].
      * rewrite decide_False by done. apply flag_unchanged.
    + rewrite andb_false_r. apply flag_unchanged.
  - pose proof (delete_photo_cases env s pid db) as H. cbv zeta in H.
    destruct H as (db' & log & r & -> & _ & Hcases). simpl.
    destruct Hcases as [[-> _]|(p & _ & _ & Hrest)]; [apply flag_unchanged|].
    destruct (PhotoSwipeFeed.db_fault env); destruct Hrest as (_ & _ & ->);
      [apply flag_unchanged|].
    destruct (PhotoSwipeFeed.guest_fetch_fault env); [apply flag_unchanged|].
    destruct (guests db !! GuestSession.guestId s) as [gd0|] eqn:Hgd0;
      [|apply flag_unchanged].
    destruct (PhotoSwipeFeed.guest_update_fault env); [apply flag_unchanged|].
    rewrite lookup_insert. case_decide as Hg; [subst g|apply flag_unchanged].
    simpl. rewrite Hgd0. split.
    + intros H. left. by exists gd0.
    + intros [(gd & [= <-] & H)|?]; done.
  - pose proof (edit_caption_cases fault s pid typed db) as H. cbv zeta in H.
    destruct H as (_ & -> & _). apply flag_unchanged.
  - simpl. rewrite lookup_fmap.
    destruct (guests db !! g) as [gd0|] eqn:Hgd0; simpl; [|done].
    assert (has_unlocked_feed (Migrations.raise_default_row gd0) = has_unlocked_feed gd0)
      as -> by (unfold Migrations.raise_default_row; by destruct (_ =? _)).
    split.
    + intros H. left. by exists gd0.
    + intros [(gd & [= <-] & H)|?]; done.
Qed.

Lemma flag_run g trace db :
  match guests (run trace db) !! g with
  | Some gd' =>
      has_unlocked_feed gd' = true
      ↔ (∃ gd, guests db !! g = Some gd ∧ has_unlocked_feed gd = true)
        ∨ (1 ≤ uploads g trace db)%nat
  | None => guests db !! g = None ∧ uploads g trace db = 0%nat
  end.
Proof.
  revert db. induction trace as [|a trace IH]; intros db.
  - simpl. destruct (guests db !! g) as [gd|] eqn:Hgd; [|done]. split.
    + intros H. left. by exists gd.
    + intros [(gd0 & [= <-] & H)|?]; [done|]. unfold uploads in *. simpl in *. lia.
  - change (run (a :: trace) db) with (run trace (step a db)).
    change (uploads g (a :: trace) db)
      with ((if is_upload_of g a db then 1 else 0) + uploads g trace (step a db))%nat.
    specialize (IH (step a db)). pose proof (flag_step g a db) as Hstep.
    destruct (guests (run trace (step a db)) !! g) as [gd'|].
    + rewrite IH. clear IH.
      destruct (guests (step a db) !! g) as [gd1|].
      * split.
        -- intros [(gd & [= <-] & Hflag)|Hup].
           ++ apply Hstep in Hflag as [?|Hup]; [by left|]. right. rewrite Hup. lia.
           ++ right. lia.
        -- intros [Hold|Hup].
           ++ left. exists gd1. split; [done|]. apply Hstep. by left.
           ++ destruct (is_upload_of g a db) eqn:Ha.
              ** left. exists gd1. split; [done|]. apply Hstep. by right.
              ** right. simpl in Hup. lia.
      * destruct Hstep as [Hnone Ha]. rewrite Ha, Hnone. simpl. split.
        -- intros [(? & ? & ?)|?]; [done|by right].
        -- intros [(? & ? & ?)|?]; [done|by right].
    + destruct IH as [Hnone Hcount]. rewrite Hnone in Hstep.
      destruct Hstep as [Hnone' Ha]. rewrite Ha, Hcount. done.
Qed.

(** C2: in every state reached from the empty tables, a guest's
    [has_unlocked_feed] is true exactly when at least one capture of that
    guest has ended in "Moment captured!"; and once it is true it is still
    true after any further actions (captures, deletes of every photo,
    caption edits, joins, the quota migration), whatever faults they meet. *)
Theorem unlock_flag_iff_uploaded trace more g gd :
  guests (run trace Migrations.create_tables) !! g = Some gd →
  (has_unlocked_feed gd = true ↔ (1 ≤ uploads g trace Migrations.create_tables)%nat)
  ∧ (has_unlocked_feed gd = true →
     ∃ gd', guests (run (trace ++ more) Migrations.create_tables) !! g = Some gd'
            ∧ has_unlocked_feed gd' = true).
Proof.
  intros Hgd. split.
  - pose proof (flag_run g trace Migrations.create_tables) as H. rewrite Hgd in H.
    rewrite H. simpl. rewrite lookup_empty. split; [|by right].
    by intros [(? & ? & ?)|?].
  - intros Hflag. unfold run. rewrite fold_left_app. fold (run trace Migrations.create_tables).
    fold (run more (run trace Migrations.create_tables)).
    pose proof (flag_run g more (run trace Migrations.create_tables)) as H.
    destruct (guests (run more _) !! g) as [gd'|].
    + exists gd'. split; [done|]. apply H. left. by exists gd.
    + destruct H as [Hnone _]. congruence.
Qed.

End UnlockFlag.

(** ** Quota after uploads and deletes *)
Section QuotaFormula.
Import Backend App Spec.






End QuotaFormula.

(** ** The quota formula on pages that keep their state *)
Section PageQuota.
Import Backend Spec Tabs.





End PageQuota.

(** ** Where the formulas of the spec fail *)
Section QuotaCounterexamples.
Import Backend App Spec.


(** C3: the upload tests and writes the page's copy of the quota, not the
    stored value.  Ann opens the guest page twice while she has 10 photos
    left and uploads from each page: both uploads end in "Moment captured!"
    with "9 photos remaining.", two photo rows are hers, and her
    [photos_remaining] is 9, not 8.  With one photo left she does the same:
    the upload from the second page goes through while the stored quota is
    0 and leaves it at 0, with eleven photos of hers in the table. *)
Theorem upload_from_an_old_page_misses_the_stored_quota :
  Guest.fetchData None None Scenario.ann Scenario.joined
  = Some (mkGuest "event-1" (Some "Ann") "token-1" 10 false,
          ("ALIBOB-4FZY"%string, Scenario.the_event))
  ∧ Tabs.press_capture (Scenario.upload_env "1") Scenario.ann
      (mkGuest "event-1" (Some "Ann") "token-1" 10 false) (Some Scenario.photo_file) []
      Scenario.joined
    = (Scenario2.one_up,
       Guest.Upload
         (PhotoUpload.Captured
            (mkToast "Moment captured!" (Some "9 photos remaining."%string) Default)))
  ∧ guests Scenario2.one_up !! "guest-1"%string
    = Some (mkGuest "event-1" (Some "Ann") "token-1" 9 true)
  ∧ Tabs.press_capture (Scenario.upload_env "2") Scenario.ann
      (mkGuest "event-1" (Some "Ann") "token-1" 10 false) (Some Scenario.photo_file) []
      Scenario2.one_up
    = (Scenario2.two_up,
       Guest.Upload
         (PhotoUpload.Captured
            (mkToast "Moment captured!" (Some "9 photos remaining."%string) Default)))
  ∧ guests Scenario2.two_up !! "guest-1"%string
    = Some (mkGuest "event-1" (Some "Ann") "token-1" 9 true)
  ∧ owned "guest-1" Scenario2.two_up = 2%nat
  ∧ Guest.fetchData None None Scenario.ann Scenario2.nine_used
    = Some (mkGuest "event-1" (Some "Ann") "token-1" 1 true,
            ("ALIBOB-4FZY"%string, Scenario.the_event))
  ∧ Tabs.press_capture (Scenario.upload_env "10") Scenario.ann
      (mkGuest "event-1" (Some "Ann") "token-1" 1 true) (Some Scenario.photo_file) []
      Scenario2.nine_used
    = (Scenario2.ten_used,
       Guest.Upload
         (PhotoUpload.Captured
            (mkToast "Moment captured!" (Some "0 photos remaining."%string) Default)))
  ∧ guests Scenario2.ten_used !! "guest-1"%string
    = Some (mkGuest "event-1" (Some "Ann") "token-1" 0 true)
  ∧ Tabs.press_capture (Scenario.upload_env "11") Scenario.ann
      (mkGuest "event-1" (Some "Ann") "token-1" 1 true) (Some Scenario.photo_file) []
      Scenario2.ten_used
    = (Scenario2.eleven_used,
       Guest.Upload
         (PhotoUpload.Captured
            (mkToast "Moment captured!" (Some "0 photos remaining."%string) Default)))
  ∧ guests Scenario2.eleven_used !! "guest-1"%string
    = Some (mkGuest "event-1" (Some "Ann") "token-1" 0 true)
  ∧ owned "guest-1" Scenario2.eleven_used = 11%nat.
Proof. do 11 (split; [vm_compute; reflexivity|]). vm_compute. reflexivity. Qed.

(** The feed searches its own list, which the handler does not change: a
    second press on an entry whose row is gone is answered "Photo deleted"
    again and gives a second credit.  From 7 left and three photos, two
    presses on the first photo leave 9 and two photos. *)
Example second_press_on_a_deleted_entry_gives_a_second_credit :
  guests Scenario2.three_used !! "guest-1"%string
  = Some (mkGuest "event-1" (Some "Ann") "token-1" 7 true)
  ∧ owned "guest-1" Scenario2.three_used = 3%nat
  ∧ Tabs.press_delete "guest-1" Scenario.delete_env (Some "guest-1"%string)
      Scenario2.feed_of_three "photo-1" Scenario2.three_used
    = (Scenario2.pressed_once, [],
       PhotoSwipeFeed.Deleted
         (mkToast "Photo deleted" (Some "Your photo credit has been restored."%string)
            Default))
  ∧ guests Scenario2.pressed_once !! "guest-1"%string
    = Some (mkGuest "event-1" (Some "Ann") "token-1" 8 true)
  ∧ photos Scenario2.pressed_once !! "photo-1"%string = None
  ∧ Tabs.press_delete "guest-1" Scenario.delete_env (Some "guest-1"%string)
      Scenario2.feed_of_three "photo-1" Scenario2.pressed_once
    = (Scenario2.pressed_twice, [],
       PhotoSwipeFeed.Deleted
         (mkToast "Photo deleted" (Some "Your photo credit has been restored."%string)
            Default))
  ∧ guests Scenario2.pressed_twice !! "guest-1"%string
    = Some (mkGuest "event-1" (Some "Ann") "token-1" 9 true)
  ∧ owned "guest-1" Scenario2.pressed_twice = 2%nat.
Proof. do 7 (split; [vm_compute; reflexivity|]). vm_compute. reflexivity. Qed.

End QuotaCounterexamples.

(** ** The theorems at work on the example wedding *)
Section Witnesses.
Import Backend App Spec Scenario.
Open Scope string_scope.
Open Scope Z_scope.


Lemma unlock_flag_iff_uploaded_witness :
  guests (run story Migrations.create_tables) !! "guest-1"
  = Some (mkGuest "event-1" (Some "Ann") "token-1" 9 true)
  ∧ (true = true ↔ (1 ≤ uploads "guest-1" story Migrations.create_tables)%nat)
  ∧ (true = true →
     ∃ gd', guests (run (story ++ [delete_nth "1"]) Migrations.create_tables) !! "guest-1"
            = Some gd'
            ∧ has_unlocked_feed gd' = true).
Proof.
  assert (guests (run story Migrations.create_tables) !! "guest-1"
          = Some (mkGuest "event-1" (Some "Ann") "token-1" 9 true)) as H
    by (vm_compute; reflexivity).
  split; [assumption|].
  exact (unlock_flag_iff_uploaded story [delete_nth "1"] "guest-1"
           (mkGuest "event-1" (Some "Ann") "token-1" 9 true) H).
Defined.



Lemma caption_length_outside_1_150_is_rejected_witness :
  ¬ (1 ≤ String.length "" ≤ 150)%nat
  ∧ ∃ e, photos_insert None "photo-7" "2026-06-01T19:00:00Z" "event-1" "guest-1"
           "event-1/guest-1/7-cake.jpg" (Some "Ann") (Some "") joined
         = (joined, Some e).
Proof.
  assert (¬ (1 ≤ String.length "" ≤ 150)%nat) as H by (simpl; lia).
  split; [assumption|].
  exact (proj1 caption_length_outside_1_150_is_rejected None "photo-7"
           "2026-06-01T19:00:00Z" "event-1" "guest-1" "event-1/guest-1/7-cake.jpg"
           (Some "Ann") "" joined H).
Defined.

Lemma join_by_code_ignores_case_and_padding_witness :
  wedding_events wedding !! "ALIBOB-4FZY" = Some the_event
  ∧ differs_in_case_and_padding " alibob-4fzy " "ALIBOB-4FZY"
  ∧ JoinWedding.normalize " alibob-4fzy " = "ALIBOB-4FZY"
  ∧ ∀ db' t,
      JoinWedding.handleJoin join_env " alibob-4fzy " "Ann" wedding
      ≠ (db', JoinWedding.EventNotFound t).
Proof.
  assert (wedding_events wedding !! "ALIBOB-4FZY" = Some the_event) as H1
    by (vm_compute; reflexivity).
  assert (differs_in_case_and_padding " alibob-4fzy " "ALIBOB-4FZY") as H2.
  { exists " ", "alibob-4fzy", " ". repeat split; reflexivity. }
  split; [assumption|]. split; [assumption|].
  pose proof (join_by_code_ignores_case_and_padding join_env wedding "ALIBOB-4FZY"
                the_event " alibob-4fzy " "Ann" H1 eq_refl eq_refl eq_refl H2 eq_refl) as H.
  exact (conj (proj1 H) (proj1 (proj2 (proj2 H)))).
Defined.

Lemma storage_delete_failure_is_ignored_witness :
  image_url first_photo.2 ∈ storage raised_with_photo
  ∧ ∃ db' t,
      PhotoSwipeFeed.handleDeletePhoto "guest-1" storage_down [first_photo]
        (Some "photo-1") (Some "guest-1") raised_with_photo
      = (db', ["Storage delete error: storage unavailable"], PhotoSwipeFeed.Deleted t)
      ∧ photos db' = delete "photo-1" (photos raised_with_photo)
      ∧ photos db' !! "photo-1" = None
      ∧ storage db' = storage raised_with_photo.
Proof.
  split; [by vm_compute|].
  apply (storage_delete_failure_is_ignored "guest-1" storage_down [first_photo] "photo-1"
           "guest-1" raised_with_photo first_photo "storage unavailable");
    try reflexivity; try discriminate.
Defined.

Lemma caption_edit_changes_only_the_caption_witness :
  photos raised_with_photo !! "photo-1" = Some first_photo.2
  ∧ (String.length "  Our first dance " ≤ PhotoSwipeFeed.MAX_CAPTION_LENGTH)%nat
  ∧ photos (PhotoSwipeFeed.handleSaveCaption "guest-1" None (Some "photo-1")
              "  Our first dance " raised_with_photo).1 !! "photo-1"
    = Some (with_caption (PhotoSwipeFeed.caption_field "  Our first dance ") first_photo.2)
  ∧ guests (PhotoSwipeFeed.handleSaveCaption "guest-1" None (Some "photo-1")
              "  Our first dance " raised_with_photo).1
    = guests raised_with_photo.
Proof.
  assert (photos raised_with_photo !! "photo-1" = Some first_photo.2) as Hp
    by (vm_compute; reflexivity).
  assert (String.length "  Our first dance " ≤ PhotoSwipeFeed.MAX_CAPTION_LENGTH)%nat as Hlen
    by (vm_compute; lia).
  assert ("photo-1" ≠ "") as Hne by discriminate.
  pose proof (caption_edit_changes_only_the_caption "guest-1" None (Some "photo-1")
                "  Our first dance " raised_with_photo) as H.
  cbv zeta in H. destruct H as (Hg & _ & _ & _ & _ & _ & _ & Hrow).
  split; [assumption|]. split; [assumption|]. split; [|assumption].
  exact (Hrow "photo-1" first_photo.2 eq_refl Hne Hp eq_refl eq_refl Hlen).
Defined.

Lemma failed_quota_read_skips_restore_witness :
  guests raised_with_photo !! "guest-1" = Some ann_row_raised
  ∧ ∃ db' log,
      PhotoSwipeFeed.handleDeletePhoto "guest-1" read_down [first_photo]
        (Some "photo-1") (Some "guest-1") raised_with_photo
      = (db', log,
         PhotoSwipeFeed.Deleted
           (mkToast "Photo deleted" (Some "Your photo credit has been restored.") Default))
      ∧ photos db' !! "photo-1" = None
      ∧ guests db' = guests raised_with_photo.
Proof.
  split; [vm_compute; reflexivity|].
  apply (failed_quota_read_skips_restore "guest-1" read_down [first_photo] "photo-1"
           "guest-1" raised_with_photo first_photo "request timed out");
    try reflexivity; try discriminate.
Defined.

End Witnesses.

(** * Further properties *)

(** ** The QR code card *)
Section QRCodeFacts.
Import QRCodeDisplay Spec2.

Lemma file_safe_kept c : file_safe c = true → kept c = true ∧ Js.is_white_space c = false.
Proof. destruct c as [[] [] [] [] [] [] [] []]; vm_compute; intuition congruence. Qed.

Lemma kept_visible_file_safe c :
  kept c = true → Js.is_white_space c = false → file_safe c = true.
Proof. destruct c as [[] [] [] [] [] [] [] []]; vm_compute; intuition congruence. Qed.

Lemma strip_kept s : string_all kept (strip s) = true.
Proof.
  induction s as [|c s IH]; simpl; [done|].
  destruct (kept c) eqn:Hc; simpl; [by rewrite Hc|done].
Qed.

Lemma dash_file_safe b s : string_all kept s = true → string_all file_safe (dash b s) = true.
Proof.
  revert b. induction s as [|c s IH]; intros b; simpl; [done|].
  intros [Hc Hs]%andb_true_iff.
  destruct (Js.is_white_space c) eqn:Hw.
  - destruct b; simpl; auto.
  - simpl. rewrite (kept_visible_file_safe c Hc Hw). simpl. auto.
Qed.

Lemma substring0_all p n s :
  string_all p s = true → string_all p (Js.substring0 n s) = true.
Proof.
  unfold Js.substring0. revert s. induction n as [|n IH]; intros [|c s]; simpl; try done.
  intros [Hc Hs]%andb_true_iff. rewrite Hc. simpl. auto.
Qed.

Lemma substring0_length n s : (String.length (Js.substring0 n s) ≤ n)%nat.
Proof.
  unfold Js.substring0. revert s. induction n as [|n IH]; intros [|c s]; simpl; try lia.
  specialize (IH s). lia.
Qed.

Lemma substring0_short n s : (String.length s ≤ n)%nat → Js.substring0 n s = s.
Proof.
  unfold Js.substring0. revert s. induction n as [|n IH]; intros [|c s]; simpl; try done.
  - lia.
  - intros H. rewrite IH; [done|lia].
Qed.

Lemma strip_file_safe s : string_all file_safe s = true → strip s = s.
Proof.
  induction s as [|c s IH]; simpl; [done|].
  intros [Hc Hs]%andb_true_iff. destruct (file_safe_kept c Hc) as [-> _]. by rewrite IH.
Qed.

Lemma dash_file_safe_id s : string_all file_safe s = true → dash false s = s.
Proof.
  induction s as [|c s IH]; simpl; [done|].
  intros [Hc Hs]%andb_true_iff. destruct (file_safe_kept c Hc) as [_ ->]. by rewrite IH.
Qed.

(** X1: whatever the names, a sanitized name has at most 50 characters and
    consists of letters, digits and dashes only; so the file name offered
    for the QR code has no white space, dot, slash or other separator
    before its [.png] ending. *)
Theorem sanitize_is_file_safe str :
  string_all file_safe (sanitize str) = true
  ∧ (String.length (sanitize str) ≤ 50)%nat.
Proof.
  split.
  - unfold sanitize. apply substring0_all, dash_file_safe, strip_kept.
  - apply substring0_length.
Qed.

(** X2: sanitizing is idempotent: a name that has been sanitized is
    returned unchanged. *)
Theorem sanitize_idempotent str : sanitize (sanitize str) = sanitize str.
Proof.
  assert (string_all file_safe (sanitize str) = true) as Hsafe
    by (unfold sanitize; apply substring0_all, dash_file_safe, strip_kept).
  pose proof (substring0_length 50 (dash false (strip str))) as Hlen.
  fold (sanitize str) in Hlen.
  generalize dependent (sanitize str). intros s Hsafe Hlen.
  unfold sanitize. rewrite strip_file_safe, dash_file_safe_id by done.
  by apply substring0_short.
Qed.

End QRCodeFacts.
(** ** The feed state follows the photos table *)
Section RealtimeFacts.
Import Backend Realtime Spec2.

Lemma NoDup_map_filter {A B} (g : A → B) (f : A → bool) (l : list A) :
  NoDup (List.map g l) → NoDup (List.map g (List.filter f l)).
Proof.
  induction l as [|x l IH]; simpl; [done|].
  intros [Hx Hl]%NoDup_cons. destruct (f x); simpl; [|by auto].
  apply NoDup_cons. split; [|by auto].
  intros Hin. apply Hx. apply list_elem_of_In in Hin. apply list_elem_of_In.
  apply in_map_iff in Hin as (y & Hy & Hin). apply in_map_iff. exists y. split; [done|].
  by apply filter_In in Hin as [Hin _].
Qed.

Lemma entry_in_ids (e : PhotoWithSignedUrl) feed :
  e ∈ feed → entry_id e ∈ List.map entry_id feed.
Proof.
  intros H%list_elem_of_In. apply list_elem_of_In, in_map_iff. by exists e.
Qed.

Lemma fetchPhotos_find_Some eventId db pid row :
  photos db !! pid = Some row → p_wedding_event_id row = eventId →
  List.find (λ p : PhotoSwipeFeed.FeedPhoto, String.eqb p.1 pid)
    (PhotoSwipeFeed.fetchPhotos eventId db) = Some (pid, row).
Proof.
  intros Hp Hev.
  assert (In (pid, row) (PhotoSwipeFeed.fetchPhotos eventId db)) as Hin.
  { unfold PhotoSwipeFeed.fetchPhotos. apply filter_In. split.
    - by apply list_elem_of_In, elem_of_map_to_list.
    - simpl. by apply String.eqb_eq. }
  destruct (List.find _ _) as [photo|] eqn:Hfind.
  - apply find_fetchPhotos in Hfind as (Hid & Hrow & _).
    destruct photo as [k r]; simpl in Hid, Hrow. subst k. rewrite Hp in Hrow.
    by injection Hrow as <-.
  - pose proof (find_none _ _ Hfind _ Hin) as Hno. simpl in Hno.
    by rewrite String.eqb_refl in Hno.
Qed.

Lemma fetched_mirrors sign eventId db prev :
  mirrors eventId (fetchPhotos None sign eventId db prev) db.
Proof.
  unfold fetchPhotos, mirrors. split.
  - rewrite List.map_map. simpl.
    unfold PhotoSwipeFeed.fetchPhotos. apply NoDup_map_filter.
    apply NoDup_fst_map_to_list.
  - intros pid row. split.
    + intros (url & Hin). apply list_elem_of_In, in_map_iff in Hin as ([k r] & Heq & Hin).
      unfold with_url in Heq. simpl in Heq. injection Heq as -> -> _.
      unfold PhotoSwipeFeed.fetchPhotos in Hin. apply filter_In in Hin as [Hin Hev].
      simpl in Hev. apply String.eqb_eq in Hev. split; [|done].
      by apply elem_of_map_to_list, list_elem_of_In.
    + intros [Hp Hev]. exists (getSignedUrl sign (image_url row)).
      apply list_elem_of_In, in_map_iff. exists (pid, row). split; [done|].
      unfold PhotoSwipeFeed.fetchPhotos. apply filter_In. split.
      * by apply list_elem_of_In, elem_of_map_to_list.
      * simpl. by apply String.eqb_eq.
Qed.

(** X3: a successful [fetchPhotos] leaves a feed state that shows each
    photo row of the event exactly once, as the table has it, and no other
    row; each entry carries the URL [getSignedUrl] gives for the row's
    [image_url] (none when signing failed, the stored value itself when it
    is a full URL); a failed [fetchPhotos] leaves the state as it was. *)
Theorem fetched_feed_mirrors_table sign eventId db prev :
  mirrors eventId (fetchPhotos None sign eventId db prev) db
  ∧ (∀ e, In e (fetchPhotos None sign eventId db prev) →
          signedUrl e = getSignedUrl sign (image_url (entry_row e))
          ∧ (String.prefix "http" (image_url (entry_row e)) = true →
             signedUrl e = Some (image_url (entry_row e))))
  ∧ ∀ e, fetchPhotos (Some e) sign eventId db prev = prev.
Proof.
  split; [apply fetched_mirrors|]. split; [|done].
  intros e Hin. unfold fetchPhotos in Hin. apply in_map_iff in Hin as (photo & <- & _).
  simpl. split; [done|]. intros Hp. unfold getSignedUrl. by rewrite Hp.
Qed.

(** X4: when a photo row of the event has been inserted and the INSERT
    handler has run, the feed state again shows exactly the rows of the
    event; an insert for another event, which the subscription does not
    deliver, leaves the feed state right as it is. *)
Theorem insert_event_keeps_mirror sign eventId feed db fault new_id now ev g url name cap db' :
  mirrors eventId feed db →
  photos_insert fault new_id now ev g url name cap db = (db', None) →
  (ev = eventId →
   mirrors eventId (on_insert sign (new_id, mkPhoto ev g url name cap now) feed) db')
  ∧ (ev ≠ eventId → mirrors eventId feed db').
Proof.
  intros [Hnd Hm] Hins. unfold photos_insert in Hins.
  destruct fault; [done|]. destruct (negb _); [done|]. destruct (negb _); [done|].
  destruct (negb _); [done|]. case_bool_decide as Hid; [done|].
  injection Hins as <-. simpl.
  assert (photos db !! new_id = None) as Hfresh.
  { destruct (photos db !! new_id) eqn:E; [|done]. exfalso. apply Hid. by eauto. }
  split; intros Hev.
  - subst ev. unfold on_insert, with_url, mirrors. simpl. split.
    + apply NoDup_cons. split; [|done]. intros Hin%list_elem_of_In.
      apply in_map_iff in Hin as ([i r u] & Hi & Hin). simpl in Hi. subst i.
      assert (photos db !! new_id = Some r ∧ p_wedding_event_id r = eventId) as [Hc _].
      { apply Hm. exists u. by apply list_elem_of_In. }
      congruence.
    + intros pid row. rewrite lookup_insert. case_decide as Hpid.
      * subst pid. split.
        -- intros (u & Hin). apply elem_of_cons in Hin as [Heq|Hin].
           ++ injection Heq as -> _. done.
           ++ assert (photos db !! new_id = Some row ∧ p_wedding_event_id row = eventId)
                as [Hc _] by (apply Hm; by exists u).
              congruence.
        -- intros [[= <-] _]. eexists. apply elem_of_cons. by left.
      * split.
        -- intros (u & Hin). apply elem_of_cons in Hin as [Heq|Hin]; [congruence|].
           apply Hm. by exists u.
        -- intros Hrow. apply Hm in Hrow as (u & Hin). exists u. apply elem_of_cons. by right.
  - split; [done|]. intros pid row. rewrite Hm. simpl.
    rewrite lookup_insert. case_decide as Hpid; [|done].
    subst pid. rewrite Hfresh. split; [by intros [? _]|].
    intros [[= <-] Hev']. simpl in Hev'. done.
Qed.

(** X5: when the owner's delete of a photo row has gone through and the
    DELETE handler has run, the feed state shows exactly the rows the
    table still has for the event. *)
Theorem delete_event_keeps_mirror eventId feed db fault uid pid p db' :
  mirrors eventId feed db →
  photos db !! pid = Some p → guest_id p = uid →
  photos_delete fault uid pid db = (db', None) →
  mirrors eventId (on_delete pid feed) db'.
Proof.
  intros [Hnd Hm] Hp Ho Hdel. unfold photos_delete in Hdel.
  destruct fault; [done|]. rewrite Hp, (proj2 (String.eqb_eq _ _) Ho) in Hdel.
  injection Hdel as <-. unfold on_delete, mirrors. simpl. split.
  - by apply NoDup_map_filter.
  - intros pid' row. rewrite lookup_delete. case_decide as Hpid.
    + subst pid'. split; [|by intros [? _]].
      intros (u & Hin). apply list_elem_of_In, filter_In in Hin as [_ Hne].
      simpl in Hne. by rewrite String.eqb_refl in Hne.
    + rewrite <- Hm. split.
      * intros (u & Hin). exists u. apply list_elem_of_In, filter_In in Hin as [Hin _].
        by apply list_elem_of_In.
      * intros (u & Hin). exists u. apply list_elem_of_In, filter_In. split.
        -- by apply list_elem_of_In.
        -- simpl. apply negb_true_iff, String.eqb_neq. congruence.
Qed.

(** X6: when the owner's caption update has gone through and the UPDATE
    handler has run on the new row, the feed state shows exactly the rows
    of the event as the table now has them. *)
Theorem update_event_keeps_mirror eventId feed db fault uid pid cap p db' :
  mirrors eventId feed db →
  photos db !! pid = Some p → guest_id p = uid →
  photos_update_caption fault uid pid cap db = (db', None) →
  mirrors eventId (on_update (pid, with_caption cap p) feed) db'.
Proof.
  intros [Hnd Hm] Hp Ho Hupd. unfold photos_update_caption in Hupd.
  destruct fault; [done|]. rewrite Hp, (proj2 (String.eqb_eq _ _) Ho) in Hupd.
  destruct (photos_caption_length cap); [|done].
  injection Hupd as <-. unfold on_update, mirrors. simpl. split.
  - rewrite List.map_map.
    rewrite (List.map_ext _ entry_id); [done|].
    intros e. by destruct (String.eqb (entry_id e) pid).
  - intros pid' row. rewrite lookup_insert. split.
    + intros (u & Hin). apply list_elem_of_In, in_map_iff in Hin as ([i r v] & Heq & Hin).
      simpl in Heq.
      assert (photos db !! i = Some r ∧ p_wedding_event_id r = eventId) as [Hr Hev]
        by (apply Hm; exists v; by apply list_elem_of_In).
      destruct (String.eqb_spec i pid) as [->|Hne].
      * injection Heq as <- <- _. rewrite decide_True by done.
        rewrite Hp in Hr. injection Hr as <-. done.
      * injection Heq as <- <- _. rewrite decide_False by done. done.
    + case_decide as Hpid.
      * subst pid'. intros [[= <-] Hev]. simpl in Hev.
        assert (∃ u, mkEntry pid p u ∈ feed) as (u & Hin) by (by apply Hm).
        exists u. apply list_elem_of_In, in_map_iff. exists (mkEntry pid p u).
        simpl. rewrite String.eqb_refl. split; [done|]. by apply list_elem_of_In.
      * intros Hrow. apply Hm in Hrow as (u & Hin). exists u.
        apply list_elem_of_In, in_map_iff. exists (mkEntry pid' row u). simpl.
        rewrite (proj2 (String.eqb_neq _ _)) by congruence.
        split; [done|]. by apply list_elem_of_In.
Qed.

End RealtimeFacts.
(** ** A capture followed by the delete of that photo *)
Section RoundTrip.
Import Backend Spec.



End RoundTrip.
(** ** Photos stored by the first upload revision *)
Section LegacyPhotos.
Import Backend Spec.

Lemma handleUpload_v1_captured getPublicUrl env props f db db1 t :
  PhotoUploadV1.handleUpload getPublicUrl env props (Some f) db
  = (db1, PhotoUpload.Captured t) →
  let path := PhotoUploadV1.fileName env props f in
  let row := mkPhoto (PhotoUpload.eventId props) (PhotoUpload.guestId props)
               (getPublicUrl path) (PhotoUpload.guestName props) None
               (PhotoUpload.photo_now env) in
  photos db !! PhotoUpload.photo_id env = None
  ∧ photos db1 = <[PhotoUpload.photo_id env := row]> (photos db)
  ∧ storage db1 = {[path]} ∪ storage db
  ∧ guests db1
    = alter (with_quota_unlocked (PhotoUpload.photosRemaining props - 1) true)
        (PhotoUpload.guestId props) (guests db).
Proof.
  unfold PhotoUploadV1.handleUpload, PhotoUploadV1.upload_body, storage_upload,
    photos_insert, guests_update_upload.
  script_unfold. simpl.
  destruct (PhotoUpload.upload_fault env); simpl; [done|].
  case_bool_decide; simpl; [done|].
  destruct (PhotoUpload.photo_fault env); simpl; [done|].
  case_bool_decide; simpl; [|done].
  case_bool_decide; simpl; [|done].
  case_bool_decide as Hid; simpl; [done|].
  destruct (PhotoUpload.update_fault env); simpl; [done|].
  intros [= <- _]. simpl. split; [|done].
  destruct (photos db !! PhotoUpload.photo_id env) eqn:E; [|done].
  exfalso. apply Hid. by eauto.
Qed.

(** X8: a photo stored by the first revision of the upload form has the
    public URL in [image_url], not the object name.  When its owner deletes
    it in the feed, with no fault, the row goes and the toast says
    "Photo deleted", but the object stays in the bucket: the storage call
    is made with the URL, which names no object. *)
Theorem legacy_photo_delete_leaves_object getPublicUrl env props f db db1 t denv guestSession :
  PhotoUploadV1.handleUpload getPublicUrl env props (Some f) db
  = (db1, PhotoUpload.Captured t) →
  (getPublicUrl (PhotoUploadV1.fileName env props f) ∉ storage db1) →
  GuestSession.guestId guestSession = PhotoUpload.guestId props →
  GuestSession.weddingEventId guestSession = PhotoUpload.eventId props →
  PhotoUpload.photo_id env ≠ EmptyString →
  PhotoUpload.guestId props ≠ EmptyString →
  PhotoSwipeFeed.storage_fault denv = None → PhotoSwipeFeed.db_fault denv = None →
  ∃ db2 t',
    Feed.delete_photo denv guestSession (PhotoUpload.photo_id env) db1
    = (db2, [], PhotoSwipeFeed.Deleted t')
    ∧ photos db2 !! PhotoUpload.photo_id env = None
    ∧ storage db2 = storage db1
    ∧ PhotoUploadV1.fileName env props f ∈ storage db2.
Proof.
  intros Hup Hurl Hsg Hse Hpid Hg Hs Hd.
  apply handleUpload_v1_captured in Hup. cbv zeta in Hup.
  destruct Hup as (Hfresh & Hph1 & Hst1 & _).
  set (pid := PhotoUpload.photo_id env) in *.
  set (path := PhotoUploadV1.fileName env props f) in *.
  set (row := mkPhoto (PhotoUpload.eventId props) (PhotoUpload.guestId props)
                (getPublicUrl path) (PhotoUpload.guestName props) None
                (PhotoUpload.photo_now env)) in *.
  assert (photos db1 !! pid = Some row) as Hrow by (rewrite Hph1; apply lookup_insert_eq).
  assert (List.find (λ p : PhotoSwipeFeed.FeedPhoto, String.eqb p.1 pid)
            (PhotoSwipeFeed.fetchPhotos (GuestSession.weddingEventId guestSession) db1)
          = Some (pid, row)) as Hfind by (by apply fetchPhotos_find_Some).
  unfold Feed.delete_photo. rewrite Hfind, Hsg.
  assert (PhotoSwipeFeed.isOwner (Some (PhotoUpload.guestId props)) (pid, row) = true)
    as ->.
  { unfold PhotoSwipeFeed.isOwner. simpl. apply andb_true_iff. split.
    - by destruct (PhotoUpload.guestId props).
    - by apply bool_decide_eq_true. }
  destruct (handleDeletePhoto_eq (PhotoUpload.guestId props) denv _ pid
              (PhotoUpload.guestId props) db1 (pid, row) Hpid Hg Hfind)
    as (db2 & log & r & Heq & _ & _ & Hst2 & Hlog & Hrest).
  simpl fst. rewrite Heq. rewrite Hs in Hst2, Hlog. rewrite Hd in Hrest.
  destruct Hrest as (-> & Hph2 & _). subst log.
  rewrite (deleted_photos_owner (PhotoUpload.guestId props) pid db1 row Hrow eq_refl)
    in Hph2.
  assert (storage db2 = storage db1) as Hsame.
  { rewrite Hst2. simpl. rewrite union_empty_r_L.
    apply set_eq. intros x. rewrite elem_of_difference, elem_of_singleton.
    split; [by intros [? _]|]. intros Hx. split; [done|]. by intros ->. }
  exists db2. eexists. split; [done|]. split; [by rewrite Hph2, lookup_delete_eq|].
  split; [done|]. rewrite Hsame, Hst1. apply elem_of_union. left. by apply elem_of_singleton.
Qed.

End LegacyPhotos.

(** ** The upload form *)
Section UploadFormFacts.
Import Backend UploadForm Spec2.

Lemma step_keeps_form props ev st db :
  (∀ f, selectedFile st = Some f → String.prefix "image/" (PhotoUpload.file_type f) = true) →
  (String.length (caption st) ≤ 150)%nat →
  (uploading st = true → confirming st = true) →
  let '(st', db', call) := step props ev st db in
  (∀ f, selectedFile st' = Some f → String.prefix "image/" (PhotoUpload.file_type f) = true)
  ∧ (String.length (caption st') ≤ 150)%nat
  ∧ (uploading st' = true → confirming st' = true)
  ∧ match call with
    | None => True
    | Some (f, cap, r) =>
        String.prefix "image/" (PhotoUpload.file_type f) = true
        ∧ (String.length cap ≤ 150)%nat
        ∧ (uploading st' = false ↔ ∃ t, r = PhotoUpload.Failed t)
    end.
Proof.
  intros Himg Hlen Hup.
  pose proof (conj Himg (conj Hlen (conj Hup I))) as Hsame.
  destruct ev as [files objectUrl| |value|env]; unfold step; cbv beta iota.
  - destruct (confirming st) eqn:Hc; [(first [exact Hsame|by intuition])|]. unfold handleFileSelect.
    destruct files as [|file files]; [(first [exact Hsame|by intuition])|].
    destruct (String.prefix "image/" (PhotoUpload.file_type file)) eqn:Hty; simpl;
      [|(first [exact Hsame|by intuition])].
    split; [by intros f [= <-]|]. split; [done|]. split; [|done].
    intros Hu. specialize (Hup Hu). congruence.
  - destruct (confirming st && negb (uploading st)) eqn:Hc; [|(first [exact Hsame|by intuition])]. simpl.
    split; [done|]. split; [lia|]. split; [|done].
    apply andb_true_iff in Hc as [_ Hn%negb_true_iff]. congruence.
  - destruct (confirming st && negb (uploading st)) eqn:Hc; [|(first [exact Hsame|by intuition])]. simpl.
    split; [done|]. split; [|done].
    unfold PhotoUpload.onChange, PhotoUpload.MAX_CAPTION_LENGTH.
    destruct (String.length value <=? 150)%nat eqn:Hv; [by apply Nat.leb_le|done].
  - destruct (confirming st && negb (uploading st)) eqn:Hc; [|(first [exact Hsame|by intuition])].
    destruct (selectedFile st) as [f|] eqn:Hf; [|by rewrite <- Hf in Hsame].
    destruct (PhotoUpload.handleUpload env props (Some f) (caption st) db) as [db' r] eqn:Hr.
    simpl. split; [exact Himg|]. split; [done|].
    apply andb_true_iff in Hc as [Hc _]. split; [done|].
    split; [by apply Himg|]. split; [done|].
    destruct r; split; try done; try (by intros (? & ?)); by eauto.
Qed.

(** X9: whatever is picked, typed and pressed on the upload form, every
    file it hands to the backend has a content type that starts with
    [image/], and every caption it sends passes the caption check of the
    photos table. *)
Theorem form_uploads_images_with_short_captions props evs db :
  Forall (λ call : PhotoUpload.File * string * PhotoUpload.Result,
            String.prefix "image/" (PhotoUpload.file_type call.1.1) = true
            ∧ photos_caption_length (PhotoUpload.caption_field call.1.2) = true)
    (run props evs initial db).2.
Proof.
  assert (∀ st db,
    (∀ f, selectedFile st = Some f →
          String.prefix "image/" (PhotoUpload.file_type f) = true) →
    (String.length (caption st) ≤ 150)%nat →
    (uploading st = true → confirming st = true) →
    Forall (λ call : PhotoUpload.File * string * PhotoUpload.Result,
              String.prefix "image/" (PhotoUpload.file_type call.1.1) = true
              ∧ photos_caption_length (PhotoUpload.caption_field call.1.2) = true)
      (run props evs st db).2) as Hgen.
  { induction evs as [|ev evs IH]; intros st db0 Himg Hlen Hup; simpl; [done|].
    pose proof (step_keeps_form props ev st db0 Himg Hlen Hup) as Hstep.
    destruct (step props ev st db0) as [[st1 db1] call].
    destruct Hstep as (Himg1 & Hlen1 & Hup1 & Hcall).
    specialize (IH st1 db1 Himg1 Hlen1 Hup1).
    destruct (run props evs st1 db1) as [[st2 db2] calls]. simpl in *.
    destruct call as [[[f cap] r]|]; [|done].
    apply Forall_cons. split; [|done]. destruct Hcall as (Hty & Hcap & _).
    simpl. split; [done|]. by apply caption_field_ok. }
  apply Hgen; [done|simpl; lia|done].
Qed.

Lemma run_while_uploading props evs st db :
  uploading st = true → confirming st = true → run props evs st db = (st, db, []).
Proof.
  intros Hu Hc. induction evs as [|ev evs IH]; simpl; [done|].
  assert (step props ev st db = (st, db, None)) as ->.
  { destruct ev; unfold step; cbv beta iota; rewrite Hc, ?Hu; done. }
  by rewrite IH.
Qed.

(** X10: a mounted upload form captures at most once: after the call that
    ended in "Moment captured!" its buttons stay disabled, so no sequence
    of events makes a second backend call. *)
Theorem form_captures_at_most_once props evs db :
  (List.length
     (List.filter (λ call : PhotoUpload.File * string * PhotoUpload.Result,
                     match call.2 with
                     | PhotoUpload.Failed _ => false
                     | _ => true
                     end)
        (run props evs initial db).2) ≤ 1)%nat.
Proof.
  assert (∀ st db,
    (∀ f, selectedFile st = Some f →
          String.prefix "image/" (PhotoUpload.file_type f) = true) →
    (String.length (caption st) ≤ 150)%nat →
    (uploading st = true → confirming st = true) →
    (List.length
       (List.filter (λ call : PhotoUpload.File * string * PhotoUpload.Result,
                       match call.2 with
                       | PhotoUpload.Failed _ => false
                       | _ => true
                       end)
          (run props evs st db).2) ≤ 1)%nat) as Hgen.
  { induction evs as [|ev evs IH]; intros st db0 Himg Hlen Hup; simpl; [lia|].
    pose proof (step_keeps_form props ev st db0 Himg Hlen Hup) as Hstep.
    destruct (step props ev st db0) as [[st1 db1] call].
    destruct Hstep as (Himg1 & Hlen1 & Hup1 & Hcall).
    destruct call as [[[f cap] r]|].
    - destruct Hcall as (_ & _ & Hfail).
      destruct (uploading st1) eqn:Hu1.
      + rewrite (run_while_uploading props evs st1 db1 Hu1 (Hup1 eq_refl)). simpl.
        destruct r; simpl; lia.
      + destruct (proj1 Hfail eq_refl) as (t & ->).
        rewrite <- Hu1 in Hup1.
        specialize (IH st1 db1 Himg1 Hlen1 Hup1).
        destruct (run props evs st1 db1) as [[st2 db2] calls]. simpl in *. done.
    - specialize (IH st1 db1 Himg1 Hlen1 Hup1).
      destruct (run props evs st1 db1) as [[st2 db2] calls]. simpl in *. done. }
  apply Hgen; [done|simpl; lia|done].
Qed.

End UploadFormFacts.
(** ** Download all *)
Section DownloadFacts.
Import Backend DownloadAll Spec2.

Lemma loop_without_rejection env photos done log :
  (∀ url, fetch_error env url = None) →
  ∃ log',
    loop env photos done log = (done ++ List.map (filename (getTime env))
                                           (List.filter (signed env) photos),
                                log ++ log', None)
    ∧ List.length log' = List.length (List.filter (λ p, negb (signed env p)) photos).
Proof.
  intros Hfetch. revert done log.
  induction photos as [|photo photos IH]; intros done log; simpl.
  - exists []. rewrite !app_nil_r. by split.
  - destruct (sign env (image_url photo)) as [e|url] eqn:Hs.
    + assert (signed env photo = false) as -> by (unfold signed; by rewrite Hs). simpl.
      destruct (IH done (log ++ ["Error getting signed URL: " +:+ e])) as (log' & -> & Hlen).
      exists (("Error getting signed URL: " +:+ e) :: log'). rewrite <- app_assoc. simpl.
      split; [done|]. by rewrite Hlen.
    + assert (signed env photo = true) as -> by (unfold signed; by rewrite Hs). simpl.
      rewrite Hfetch.
      destruct (IH (done ++ [filename (getTime env) photo]) log) as (log' & -> & Hlen).
      exists log'. rewrite <- app_assoc. done.
Qed.

(** X11: when the photo rows are read and no transfer is rejected, the
    dashboard downloads one file for each row whose URL could be signed, in
    the order of the rows, and writes one console line for each row it
    skipped; the closing toast counts the rows, not the files: it says
    "Downloaded n photos." for n rows even when fewer (or no) files were
    downloaded. *)
Theorem download_all_counts_rows env event db :
  select_fault env = None →
  (∀ url, fetch_error env url = None) →
  rows (e_id event) db ≠ [] →
  let out := handleDownloadAll env (Some event) db in
  downloads out
  = List.map (filename (getTime env)) (List.filter (signed env) (rows (e_id event) db))
  ∧ List.length (console out)
    = List.length (List.filter (λ p, negb (signed env p)) (rows (e_id event) db))
  ∧ toast out
    = Some (mkToast "Download complete"
              (Some ("Downloaded " +:+ pretty (List.length (rows (e_id event) db))
                       +:+ " photos."))
              Default).
Proof.
  intros Hsel Hfetch Hrows. unfold handleDownloadAll. rewrite Hsel.
  destruct (rows (e_id event) db) as [|photo photos] eqn:Hr; [done|].
  destruct (loop_without_rejection env (photo :: photos) [] [] Hfetch) as (log' & -> & Hlen).
  cbv zeta. simpl downloads. simpl console. simpl toast. done.
Qed.

Lemma string_all_app p a b :
  string_all p (a +:+ b) = string_all p a && string_all p b.
Proof. induction a as [|c a IH]; simpl; [done|]. by rewrite IH, andb_assoc. Qed.

Lemma last_segment_no_dot acc s :
  string_all not_dot acc = true → string_all not_dot (last_segment acc s) = true.
Proof.
  revert acc. induction s as [|c s IH]; intros acc Hacc; simpl; [done|].
  destruct (N_of_ascii c =? 46)%N eqn:Hc.
  - by apply IH.
  - apply IH. rewrite string_all_app, Hacc. simpl. unfold not_dot. by rewrite Hc.
Qed.

Lemma append_String c (s t : string) : String c s +:+ t = String c (s +:+ t).
Proof. reflexivity. Qed.

Lemma append_empty_r (s : string) : s +:+ EmptyString = s.
Proof. induction s as [|c s IH]; [done|]. by rewrite append_String, IH. Qed.

Lemma append_cons_r (a : string) c (s : string) :
  (a +:+ String c EmptyString) +:+ s = a +:+ String c s.
Proof. induction a as [|x a IH]; [done|]. by rewrite !append_String, IH. Qed.

Lemma last_segment_whole acc s :
  string_all not_dot s = true → last_segment acc s = acc +:+ s.
Proof.
  revert acc. induction s as [|c s IH]; intros acc; simpl.
  - intros _. by rewrite append_empty_r.
  - intros [Hc Hs]%andb_true_iff. unfold not_dot in Hc. apply negb_true_iff in Hc.
    rewrite Hc, IH by done. apply append_cons_r.
Qed.

Lemma replace_non_alnum_word s : string_all word_char (replace_non_alnum s) = true.
Proof.
  induction s as [|c s IH]; simpl; [done|]. rewrite IH, andb_true_r.
  unfold alnum_or_underscore, word_char.
  destruct (Js.is_lower c || Js.is_upper c || Js.is_digit c) eqn:Hc; [|done].
  by rewrite Hc.
Qed.

(** X12: the name of a downloaded file is
    [<guest>_<timestamp>.<extension>] where the guest part is not empty
    and has letters, digits and underscores only ("guest" when the photo
    has no name), and the extension is not empty and has no dot; for an
    object name without any dot the extension is the whole object name. *)
Theorem download_file_name_shape getTime photo :
  filename getTime photo
  = guest_part (p_guest_name photo) +:+ "_" +:+ getTime (captured_at photo) +:+ "."
      +:+ extension (image_url photo)
  ∧ guest_part (p_guest_name photo) ≠ EmptyString
  ∧ string_all word_char (guest_part (p_guest_name photo)) = true
  ∧ guest_part None = "guest"%string
  ∧ extension (image_url photo) ≠ EmptyString
  ∧ string_all not_dot (extension (image_url photo)) = true
  ∧ (string_all not_dot (image_url photo) = true → image_url photo ≠ EmptyString →
     extension (image_url photo) = image_url photo).
Proof.
  split; [done|]. split; [|split; [|split; [done|]]].
  - unfold guest_part. destruct (p_guest_name photo) as [n|]; [|done].
    by destruct (replace_non_alnum n).
  - unfold guest_part. destruct (p_guest_name photo) as [n|]; [|done].
    pose proof (replace_non_alnum_word n) as H.
    by destruct (replace_non_alnum n).
  - pose proof (last_segment_no_dot EmptyString (image_url photo) eq_refl) as Hseg.
    unfold extension. split; [|split].
    + by destruct (last_segment EmptyString (image_url photo)).
    + by destruct (last_segment EmptyString (image_url photo)).
    + intros Hno Hne. rewrite (last_segment_whole EmptyString _ Hno). simpl.
      by destruct (image_url photo).
Qed.

End DownloadFacts.
(** ** The couple's feed page *)
Section CoupleFeedFacts.
Import Backend Spec2.

(** X13: the couple's feed page shows an event only to a signed-in user
    who is the couple of the event stored under exactly the code of the
    address, and every photo it then shows is a row of the photos table
    that belongs to this event. *)
Theorem couple_feed_shows_own_event authLoading user eventCode ef pf sign db event shown :
  CoupleFeed.open authLoading user eventCode ef pf sign db = CoupleFeed.Show event shown →
  authLoading = false
  ∧ ∃ uid code,
      user = Some uid ∧ eventCode = Some code ∧ code ≠ EmptyString
      ∧ wedding_events db !! code = Some event
      ∧ couple_user_id event = uid
      ∧ ∀ e, e ∈ shown →
             photos db !! Realtime.entry_id e = Some (Realtime.entry_row e)
             ∧ p_wedding_event_id (Realtime.entry_row e) = e_id event.
Proof.
  unfold CoupleFeed.open. destruct authLoading; [done|].
  destruct user as [uid|]; [|done].
  destruct eventCode as [[|c code]|]; [done| |done]. simpl.
  unfold events_select_by_code. destruct ef; [done|].
  destruct (wedding_events db !! String c code) as [ev|] eqn:Hev; [|done].
  destruct (String.eqb (couple_user_id ev) uid) eqn:Hown; [|done]. simpl.
  intros [= <- <-]. split; [done|]. exists uid, (String c code).
  apply String.eqb_eq in Hown.
  split; [done|]. split; [done|]. split; [done|]. split; [done|]. split; [done|].
  intros e He. unfold Realtime.fetchPhotos in He. destruct pf.
  - by apply elem_of_nil in He.
  - apply list_elem_of_In, in_map_iff in He as ([k r] & <- & Hin). simpl.
    unfold PhotoSwipeFeed.fetchPhotos in Hin. apply filter_In in Hin as [Hin Hp].
    simpl in Hp. apply String.eqb_eq in Hp. split; [|done].
    by apply elem_of_map_to_list, list_elem_of_In.
Qed.

End CoupleFeedFacts.

(** ** The guest session over anonymous sign-in *)
Section AnonymousSessionFacts.
Import Backend AnonymousSession.

Lemma guests_insert_inr fault new_id eid name tok db db' row :
  guests_insert fault new_id eid name tok db = (db', inr row) →
  fault = None
  ∧ guests db !! new_id = None
  ∧ token_taken db tok = false
  ∧ is_Some (event_by_id db eid)
  ∧ row = (new_id, mkGuest eid name tok (photos_remaining_default db) false)
  ∧ db' = set_guests (insert new_id row.2) db.
Proof.
  unfold guests_insert. destruct fault; [done|].
  case_bool_decide as Hev; simpl; [|done].
  destruct (token_taken db tok) eqn:Htok; [done|].
  case_bool_decide as Hid; [done|]. intros [= <- <-]. simpl.
  split; [done|]. split; [|done].
  destruct (guests db !! new_id) eqn:E; [|done]. exfalso. apply Hid. by eauto.
Qed.

Lemma guests_insert_inl fault new_id eid name tok db db' message :
  guests_insert fault new_id eid name tok db = (db', inl message) → db' = db.
Proof.
  unfold guests_insert. destruct fault; [by intros [= <- _]|].
  destruct (negb _); [by intros [= <- _]|].
  destruct (token_taken db tok); [by intros [= <- _]|].
  destruct (bool_decide _); [by intros [= <- _]|]. done.
Qed.

(** X14: [createGuestSession] succeeds only when the anonymous sign-in
    gave a user and the guest row was inserted: the row then has the user
    id as its id, the column defaults for quota and feed flag, and the
    hook holds a session for it.  In every other case no guest row is
    written and an error is returned; when it was the insert that failed
    the user is signed out again and the hook holds no session. *)
Theorem create_guest_session_outcome env eid name auth held db :
  let out := createGuestSession env eid name auth held db in
  let auth' := out.1.1.1 in
  let db' := out.1.1.2 in
  let held' := out.1.2 in
  let res := out.2 in
  if success res
  then ∃ uid,
      auth_answer env = inr (Some uid)
      ∧ error res = None
      ∧ auth' = Some (uid, true)
      ∧ guests db !! uid = None
      ∧ db' = set_guests (insert uid (mkGuest eid name (random_uuid env)
                                        (photos_remaining_default db) false)) db
      ∧ held' = Some (mkSession uid eid (or_undefined name))
  else db' = db
       ∧ is_Some (error res)
       ∧ match auth_answer env with
         | inr (Some _) => auth' = None ∧ held' = None
         | _ => auth' = auth ∧ held' = held
         end.
Proof.
  unfold createGuestSession.
  destruct (auth_answer env) as [message|[uid|]]; simpl; [by eauto| |by eauto].
  destruct (guests_insert _ _ _ _ _ _) as [db' [message|row]] eqn:Hins; simpl.
  - apply guests_insert_inl in Hins. by eauto.
  - apply guests_insert_inr in Hins as (_ & Hfresh & _ & _ & -> & ->). simpl.
    exists uid. done.
Qed.

(** X15: after a successful [createGuestSession], [checkSession] on the
    next mount finds the same guest session again, as long as the guest
    row can be read. *)
Theorem created_session_is_found_again env eid name auth held db auth' db' held' :
  createGuestSession env eid name auth held db = (auth', db', held', mkResult true None) →
  is_Some held' ∧ checkSession None auth' db' = held'.
Proof.
  unfold createGuestSession.
  destruct (auth_answer env) as [message|[uid|]]; [done| |done].
  destruct (guests_insert _ _ _ _ _ _) as [db1 [message|row]] eqn:Hins; [done|].
  apply guests_insert_inr in Hins as (_ & Hfresh & _ & _ & -> & ->).
  intros [= <- <- <-]. split; [by eauto|].
  unfold checkSession, guests_select_single. simpl.
  by rewrite lookup_insert_eq.
Qed.

End AnonymousSessionFacts.
(** ** The couple's dashboard *)
Section CoupleDashboardFacts.
Import Backend CoupleDashboard.

Lemma Permutation_filter_bool {A} (f : A → bool) (l l' : list A) :
  l ≡ₚ l' → List.filter f l ≡ₚ List.filter f l'.
Proof.
  induction 1 as [|x l l' _ IH|x y l|l l' l'' _ IH1 _ IH2]; simpl.
  - done.
  - destruct (f x); [by constructor|done].
  - destruct (f x), (f y); try done. by constructor.
  - by etrans.
Qed.

Lemma filter_none {A} (f : A → bool) (l : list A) :
  (∀ x, In x l → f x = false) → List.filter f l = [].
Proof.
  induction l as [|x l IH]; simpl; [done|]. intros H.
  rewrite (H x) by auto. apply IH. by auto.
Qed.

Lemma events_insert_inr fault new_id user name partner date code db db' row :
  events_insert fault new_id user name partner date code db = (db', inr row) →
  wedding_events db !! code = None
  ∧ row = (code, mkWeddingEvent new_id user name partner date)
  ∧ db' = set_wedding_events (insert code row.2) db.
Proof.
  unfold events_insert. destruct fault; [done|].
  case_bool_decide as Hcode; [done|]. case_bool_decide as Hid; [done|].
  intros [= <- <-]. split; [|done].
  destruct (wedding_events db !! code) eqn:E; [|done]. exfalso. apply Hcode. by eauto.
Qed.

(** X16: when a signed-in user who has no event yet creates one, the
    dashboard's [fetchWeddingEvent] loads exactly the created event, under
    the generated code, and logs nothing. *)
Theorem created_event_is_loaded fault uid new_id random36 coupleName partnerName weddingDate
    db db' code t :
  (∀ c ev, wedding_events db !! c = Some ev → couple_user_id ev ≠ uid) →
  Dashboard.handleCreateEvent fault (Some uid) new_id random36 coupleName partnerName
    weddingDate db = (db', Dashboard.Created code t) →
  code = Dashboard.generateEventCode coupleName partnerName random36
  ∧ fetchWeddingEvent None (Some uid) db'
    = (Some (code, mkWeddingEvent new_id uid coupleName partnerName weddingDate), []).
Proof.
  intros Hnone. unfold Dashboard.handleCreateEvent.
  destruct (events_insert _ _ _ _ _ _ _ _) as [db1 [message|row]] eqn:Hins; [done|].
  apply events_insert_inr in Hins as (Hfresh & -> & ->). simpl.
  intros [= <- <- _]. split; [done|].
  unfold fetchWeddingEvent, events_select_by_couple. simpl.
  set (code := Dashboard.generateEventCode coupleName partnerName random36) in *.
  set (row := mkWeddingEvent new_id uid coupleName partnerName weddingDate).
  set (f := λ kv : string * WeddingEvent, String.eqb (couple_user_id kv.2) uid).
  assert (List.filter f (map_to_list (<[code:=row]> (wedding_events db))) = [(code, row)])
    as ->; [|done].
  apply Permutation_singleton_r.
  rewrite (Permutation_filter_bool f _ _ (map_to_list_insert _ code row Hfresh)).
  simpl. unfold f at 1. simpl. rewrite String.eqb_refl.
  rewrite filter_none; [done|].
  intros [c ev] Hin. apply list_elem_of_In, elem_of_map_to_list in Hin.
  unfold f. simpl. apply String.eqb_neq. by eapply Hnone.
Qed.

(** X17: nothing stops a user from creating a second event (the form is
    shown again whenever the event could not be loaded), and once two
    events have the same couple the dashboard never loads an event for
    that user again: the single-row read fails and the error is logged. *)
Theorem two_events_of_one_couple_load_none fault uid db c1 e1 c2 e2 :
  wedding_events db !! c1 = Some e1 → wedding_events db !! c2 = Some e2 →
  c1 ≠ c2 → couple_user_id e1 = uid → couple_user_id e2 = uid →
  ∃ message, fetchWeddingEvent fault (Some uid) db
             = (None, ["Error fetching wedding event: " +:+ message]).
Proof.
  intros H1 H2 Hne Hu1 Hu2. unfold fetchWeddingEvent, events_select_by_couple.
  destruct fault as [e|]; [by eauto|].
  set (f := λ kv : string * WeddingEvent, String.eqb (couple_user_id kv.2) uid).
  assert (In (c1, e1) (List.filter f (map_to_list (wedding_events db)))) as Hin1.
  { apply filter_In. split; [by apply list_elem_of_In, elem_of_map_to_list|].
    unfold f. simpl. by apply String.eqb_eq. }
  assert (In (c2, e2) (List.filter f (map_to_list (wedding_events db)))) as Hin2.
  { apply filter_In. split; [by apply list_elem_of_In, elem_of_map_to_list|].
    unfold f. simpl. by apply String.eqb_eq. }
  destruct (List.filter f (map_to_list (wedding_events db))) as [|a [|b l]].
  - done.
  - exfalso. destruct Hin1 as [Ha|[]]. destruct Hin2 as [Hb|[]]. rewrite Ha in Hb.
    injection Hb as Hc _. by apply Hne.
  - by eauto.
Qed.

Lemma length_filter_insert {V} (f : string * V → bool) (m : gmap string V) k v :
  m !! k = None →
  List.length (List.filter f (map_to_list (<[k:=v]> m)))
  = ((if f (k, v) then 1 else 0) + List.length (List.filter f (map_to_list m)))%nat.
Proof.
  intros Hk.
  rewrite (Permutation_length (Permutation_filter_bool f _ _ (map_to_list_insert m k v Hk))).
  simpl. by destruct (f (k, v)).
Qed.

Lemma length_filter_insert_same {V} (f : string * V → bool) (m : gmap string V) k v v0 :
  m !! k = Some v0 → f (k, v) = f (k, v0) →
  List.length (List.filter f (map_to_list (<[k:=v]> m)))
  = List.length (List.filter f (map_to_list m)).
Proof.
  intros Hk Hf.
  rewrite <- (insert_delete_id m k v0 Hk) at 2.
  rewrite <- (insert_delete_eq m k v).
  rewrite !length_filter_insert by apply lookup_delete_eq. by rewrite Hf.
Qed.

(** X18: the dashboard counters.  With both reads answered they are the
    numbers of guest rows and photo rows of the event; a read that fails
    shows as 0.  A join that lets a guest in raises the guest counter of
    the joined event by one and leaves the photo counter, and a capture
    that ends in "Moment captured!" raises the photo counter of the
    guest's event by one and leaves the guest counter. *)
Theorem dashboard_counters_follow_the_tables eventId db :
  (∀ e pf, total_guests (fetchGuestStats (Some e) pf eventId db) = 0%nat)
  ∧ (∀ e gf, total_photos (fetchGuestStats gf (Some e) eventId db) = 0%nat)
  ∧ (∀ env eventCode guestName db' session t,
       JoinWedding.handleJoin env eventCode guestName db = (db', JoinWedding.Joined session t) →
       fetchGuestStats None None eventId db'
       = mkStats
           ((if String.eqb (GuestSession.weddingEventId session) eventId then 1 else 0)
            + total_guests (fetchGuestStats None None eventId db))
           (total_photos (fetchGuestStats None None eventId db)))
  ∧ (∀ gf ef env guestSession file typed db' url,
       Guest.capture gf ef env guestSession file typed db
       = (db', Guest.Upload (PhotoUpload.Captured url)) →
       fetchGuestStats None None eventId db'
       = mkStats
           (total_guests (fetchGuestStats None None eventId db))
           ((if String.eqb (GuestSession.weddingEventId guestSession) eventId then 1 else 0)
            + total_photos (fetchGuestStats None None eventId db))).
Proof.
  split; [done|]. split; [done|]. split.
  - intros env eventCode guestName db' session t.
    unfold JoinWedding.handleJoin, events_select_by_code.
    destruct (JoinWedding.event_fault env); [done|].
    destruct (wedding_events db !! _) as [event|]; [|done].
    destruct (guests_insert _ _ _ _ _ _) as [db1 [message|row]] eqn:Hins; [done|].
    apply guests_insert_inr in Hins as (_ & Hfresh & _ & _ & -> & ->).
    intros [= <- <- _]. simpl.
    unfold fetchGuestStats, count_guests, count_photos, PhotoSwipeFeed.fetchPhotos. simpl.
    f_equal. by rewrite length_filter_insert.
  - intros gf ef env guestSession file typed db' url Hcap.
    pose proof (capture_cases gf ef env guestSession file typed db) as Hc.
    cbv zeta in Hc. destruct Hc as (db1 & r & Hrun & _ & _ & Hc).
    rewrite Hcap in Hrun. injection Hrun as <- <-.
    destruct Hc as [[_ [?|[[? _]|[? _]]]]|(gd & f & Hgd & _ & _ & Hc)]; [done..|].
    destruct Hc as [(t & _ & _ & _ & Hfresh & Hg & Hp)|(t & ? & _)]; [|done].
    unfold fetchGuestStats, count_guests, count_photos, PhotoSwipeFeed.fetchPhotos.
    simpl. rewrite Hg, Hp.
    rewrite (length_filter_insert_same _ _ _ _ gd) by done.
    by rewrite (length_filter_insert _ _ _ _ Hfresh).
Qed.

End CoupleDashboardFacts.
(** ** What the guest page shows *)
Section GuestPageFacts.
Import Backend App.

Lemma step_locked_positive a db :
  0 < photos_remaining_default db →
  (∀ g gd, guests db !! g = Some gd → has_unlocked_feed gd = false → 0 < photos_remaining gd) →
  0 < photos_remaining_default (step a db)
  ∧ ∀ g gd, guests (step a db) !! g = Some gd → has_unlocked_feed gd = false →
            0 < photos_remaining gd.
Proof.
  intros Hdef Hrows. destruct a as [fault user new_id r36 cn pn wd|env code name
    |gf ef env s file typed|env s pid|fault s pid typed|]; unfold step.
  - pose proof (create_event_cases fault user new_id r36 cn pn wd db) as H.
    cbv zeta in H. destruct H as (-> & _ & ->). done.
  - pose proof (join_cases env code name db) as H. cbv zeta in H.
    destruct H as (-> & _ & [->|(row & _ & Hpr & _ & ->)]); [done|].
    split; [done|]. intros g gd.
    rewrite lookup_insert. case_decide; [|by apply Hrows].
    intros [= <-] _. by rewrite Hpr.
  - pose proof (capture_cases gf ef env s file typed db) as H. cbv zeta in H.
    destruct H as (db' & r & -> & Hdef' & _ & Hcases). simpl. rewrite Hdef'.
    split; [done|].
    destruct Hcases as [[-> _]|(gd0 & f & Hgd0 & Hopen & _ & Hrest)]; [done|].
    destruct Hrest as [(t & _ & _ & _ & _ & -> & _)|(t & _ & -> & _)]; [|done].
    intros g gd. rewrite lookup_insert. case_decide; [|by apply Hrows].
    by intros [= <-].
  - pose proof (delete_photo_cases env s pid db) as H. cbv zeta in H.
    destruct H as (db' & log & r & -> & Hdef' & Hcases).
    simpl. rewrite Hdef'. split; [done|].
    destruct Hcases as [[-> _]|(p & _ & _ & Hrest)]; [done|].
    destruct (PhotoSwipeFeed.db_fault env); destruct Hrest as (_ & _ & ->); [done|].
    destruct (PhotoSwipeFeed.guest_fetch_fault env); [done|].
    destruct (guests db !! GuestSession.guestId s) as [gd0|] eqn:Hgd0; [|done].
    destruct (PhotoSwipeFeed.guest_update_fault env); [done|].
    intros g gd. rewrite lookup_insert. case_decide; [|by apply Hrows].
    intros [= <-]. simpl. intros Hflag. pose proof (Hrows _ _ Hgd0 Hflag). lia.
  - pose proof (edit_caption_cases fault s pid typed db) as H. cbv zeta in H.
    destruct H as (-> & -> & _). done.
  - simpl. split; [done|]. intros g gd. rewrite lookup_fmap.
    destruct (guests db !! g) as [gd0|] eqn:Hgd0; [|done]. intros [= <-].
    unfold Migrations.raise_default_row.
    destruct (photos_remaining gd0 =? 10); simpl; [by intros; lia|by eapply Hrows].
Qed.

Lemma run_locked_positive trace db :
  0 < photos_remaining_default db →
  (∀ g gd, guests db !! g = Some gd → has_unlocked_feed gd = false → 0 < photos_remaining gd) →
  ∀ g gd, guests (run trace db) !! g = Some gd → has_unlocked_feed gd = false →
          0 < photos_remaining gd.
Proof.
  revert db. induction trace as [|a trace IH]; intros db Hdef Hrows; [done|].
  simpl. destruct (step_locked_positive a db Hdef Hrows) as [Hdef' Hrows'].
  by apply IH.
Qed.

(** X19: in every state the application reaches from the empty tables,
    the guest page shows the feed only to a guest who has uploaded at
    least once, and it is the feed of the event of the session.  A guest
    who has not uploaded yet sees the locked page, and there the capture
    button is never disabled: a locked guest always has photos left. *)
Theorem guest_page_opens_feed_after_first_upload trace gf ef guestSession :
  let db := run trace Migrations.create_tables in
  let n := uploads (GuestSession.guestId guestSession) trace Migrations.create_tables in
  (∀ eventId button,
     GuestPage.loaded gf ef guestSession db = GuestPage.FeedView eventId button →
     eventId = GuestSession.weddingEventId guestSession ∧ (1 ≤ n)%nat)
  ∧ (∀ disabled,
       GuestPage.loaded gf ef guestSession db = GuestPage.Locked disabled →
       disabled = false ∧ n = 0%nat)
  ∧ (n = 0%nat →
     GuestPage.loaded gf ef guestSession db = GuestPage.Loading
     ∨ GuestPage.loaded gf ef guestSession db = GuestPage.Locked false).
Proof.
  intros db n.
  pose proof (flag_run (GuestSession.guestId guestSession) trace Migrations.create_tables)
    as Hflag. fold db n in Hflag.
  assert (∀ gd, guests db !! GuestSession.guestId guestSession = Some gd →
                has_unlocked_feed gd = false → (photos_remaining gd =? 0) = false) as Hpos.
  { intros gd Hgd Hf.
    pose proof (run_locked_positive trace Migrations.create_tables) as H.
    specialize (H ltac:(simpl; lia) ltac:(by intros ? ?; simpl; rewrite lookup_empty)).
    specialize (H _ _ Hgd Hf). lia. }
  unfold GuestPage.loaded.
  destruct (Guest.fetchData gf ef guestSession db) as [[gd ev]|] eqn:Hfetch.
  2:{ split; [done|]. split; [done|]. by left. }
  apply fetchData_Some in Hfetch as (_ & _ & Hgd). rewrite Hgd in Hflag.
  specialize (Hpos gd Hgd). unfold GuestPage.render. simpl.
  destruct (has_unlocked_feed gd) eqn:Hf; simpl.
  - assert (1 ≤ n)%nat as Hn.
    { destruct Hflag as [Hflag _]. destruct (Hflag eq_refl) as [(gd0 & Hgd0 & _)|Hn]; [|done].
      simpl in Hgd0. by rewrite lookup_empty in Hgd0. }
    split; [by intros ? ? [= <- _]|]. split; [done|]. intros Hz. lia.
  - rewrite (Hpos eq_refl).
    assert (n = 0%nat) as Hn.
    { destruct Hflag as [_ Hflag]. destruct n; [done|]. discriminate Hflag. right. lia. }
    split; [done|]. split; [by intros ? [= <-]|]. by right.
Qed.

End GuestPageFacts.
(** ** Row-level policies and SQL helper functions *)
Section PolicyFacts.
Import Backend Policies.

Lemma existsb_none {A} (f : A → bool) (l : list A) :
  (∀ x, In x l → f x = false) → existsb f l = false.
Proof.
  induction l as [|x l IH]; simpl; [done|]. intros H.
  rewrite (H x) by auto. apply IH. by auto.
Qed.

Lemma couple_may_view_false uid db p :
  (∀ c ev, wedding_events db !! c = Some ev → couple_user_id ev ≠ uid) →
  couple_may_view uid db p = false.
Proof.
  intros Hnone. unfold couple_may_view. apply existsb_none.
  intros [c ev] Hin. apply list_elem_of_In, elem_of_map_to_list in Hin. simpl.
  apply andb_false_iff. right. apply String.eqb_neq. by eapply Hnone.
Qed.

(** X20: under the read policy of the photos table, a guest whose feed is
    still locked (and who is the couple of no event) can read no photo
    row at all; after an upload of theirs that ends in "Moment captured!"
    the rows they can read are exactly the photo rows of their event, the
    new one among them. *)
Theorem upload_opens_the_photo_policy uid g db :
  guests db !! uid = Some g →
  has_unlocked_feed g = false →
  (∀ c ev, wedding_events db !! c = Some ev → couple_user_id ev ≠ uid) →
  visible_photos uid db = []
  ∧ ∀ env props f caption db' t,
      PhotoUpload.guestId props = uid →
      PhotoUpload.eventId props = g_wedding_event_id g →
      PhotoUpload.handleUpload env props (Some f) caption db
      = (db', PhotoUpload.Captured t) →
      In (PhotoUpload.photo_id env, Spec.uploaded_row env props f caption)
         (visible_photos uid db')
      ∧ ∀ pid p, In (pid, p) (visible_photos uid db')
                 ↔ photos db' !! pid = Some p
                   ∧ p_wedding_event_id p = g_wedding_event_id g.
Proof.
  intros Hg Hlocked Hnone. split.
  - unfold visible_photos. apply filter_none. intros [pid p] _. simpl.
    rewrite (couple_may_view_false _ _ _ Hnone). unfold guest_may_view.
    by rewrite Hg, Hlocked, andb_false_r.
  - intros env props f caption db' t Hid Hev Hup.
    pose proof (handleUpload_cases env props f caption db) as Hc.
    cbv zeta in Hc. destruct Hc as (db1 & r & Hrun & _ & Hevs & Hc).
    rewrite Hup in Hrun. injection Hrun as <- <-.
    destruct Hc as [(t' & _ & _ & _ & _ & _ & Hfresh & _ & _ & Hgs & Hps & _)|(t' & ? & _)];
      [|done].
    assert (∀ pid p, In (pid, p) (visible_photos uid db')
                     ↔ photos db' !! pid = Some p
                       ∧ p_wedding_event_id p = g_wedding_event_id g) as Hvis.
    { intros pid p. unfold visible_photos. rewrite filter_In. simpl.
      rewrite <- list_elem_of_In, elem_of_map_to_list.
      rewrite couple_may_view_false by (by rewrite Hevs).
      unfold guest_may_view. rewrite Hgs, Hid, lookup_alter_eq, Hg. simpl.
      rewrite orb_false_r, andb_true_r, String.eqb_eq. by intuition. }
    split; [|done]. apply Hvis. rewrite Hps, lookup_insert_eq. by rewrite <- Hev.
Qed.

Lemma find_token_fresh (tok : string) (l : list (string * Guest)) k row :
  existsb (λ kv, String.eqb (session_token kv.2) tok) l = false →
  session_token row = tok →
  ∀ l', l' ≡ₚ (k, row) :: l →
  List.find (λ kv : string * Guest, String.eqb (session_token kv.2) tok) l' = Some (k, row).
Proof.
  intros Hno Htok l' Hperm.
  destruct (List.find _ l') as [[k' row']|] eqn:Hfind.
  - apply find_some in Hfind as [Hin Heq]. simpl in Heq.
    apply list_elem_of_In in Hin. rewrite Hperm in Hin.
    apply elem_of_cons in Hin as [->|Hin]; [done|]. exfalso.
    apply list_elem_of_In in Hin.
    assert (existsb (λ kv : string * Guest, String.eqb (session_token kv.2) tok) l = true)
      as Hyes by (apply existsb_exists; by exists (k', row')).
    by rewrite Hno in Hyes.
  - exfalso. assert (In (k, row) l') as Hin.
    { apply list_elem_of_In. rewrite Hperm. by left. }
    pose proof (find_none _ _ Hfind _ Hin) as Hn. simpl in Hn.
    by rewrite Htok, String.eqb_refl in Hn.
Qed.

(** X21: after a join that lets the guest in, the SQL function
    [get_guest_by_token] maps the session token the browser keeps to the
    id of the new guest row, and [guest_belongs_to_event] holds for that
    guest and the event of the session. *)
Theorem joined_token_identifies_the_guest env eventCode guestName db db' session t :
  JoinWedding.handleJoin env eventCode guestName db = (db', JoinWedding.Joined session t) →
  get_guest_by_token (GuestSession.sessionToken session) db'
  = Some (GuestSession.guestId session)
  ∧ guest_belongs_to_event (GuestSession.guestId session)
      (GuestSession.weddingEventId session) db' = true.
Proof.
  unfold JoinWedding.handleJoin, events_select_by_code.
  destruct (JoinWedding.event_fault env); [done|].
  destruct (wedding_events db !! _) as [event|]; [|done].
  destruct (guests_insert _ _ _ _ _ _) as [db1 [message|row]] eqn:Hins; [done|].
  apply guests_insert_inr in Hins as (_ & Hfresh & Htok & _ & -> & ->).
  intros [= <- <- _]. simpl. split.
  - unfold get_guest_by_token. simpl.
    set (row := mkGuest _ _ _ _ _).
    by rewrite (find_token_fresh _ _ (JoinWedding.guest_uuid env) row Htok eq_refl _
                  (map_to_list_insert (guests db) _ _ Hfresh)).
  - unfold guest_belongs_to_event. simpl. rewrite lookup_insert_eq. simpl.
    apply String.eqb_refl.
Qed.

End PolicyFacts.

(** ** Joining and the quota migration *)
Section JoinFacts.
Import Backend.

(** X22: a join that lets the guest in writes exactly one new guest row,
    under the id of the session it returns: the event of the session, the
    trimmed name (none when it is blank), the session token, the feed
    locked and the quota the column default gives; every other guest row
    is as it was.  The number in the welcome toast is the literal 10. *)
Theorem join_writes_a_locked_row_with_the_default_quota env eventCode guestName db db'
    session t :
  JoinWedding.handleJoin env eventCode guestName db = (db', JoinWedding.Joined session t) →
  guests db !! GuestSession.guestId session = None
  ∧ guests db'
    = <[GuestSession.guestId session :=
          mkGuest (GuestSession.weddingEventId session) (Js.or_null (Js.trim guestName))
            (GuestSession.sessionToken session) (photos_remaining_default db) false]>
        (guests db)
  ∧ GuestSession.guestName session = Js.or_null (Js.trim guestName)
  ∧ photos db' = photos db
  ∧ description t = Some "You have 10 photos to share."%string.
Proof.
  unfold JoinWedding.handleJoin, events_select_by_code.
  destruct (JoinWedding.event_fault env); [done|].
  destruct (wedding_events db !! _) as [event|]; [|done].
  destruct (guests_insert _ _ _ _ _ _) as [db1 [message|row]] eqn:Hins; [done|].
  apply guests_insert_inr in Hins as (_ & Hfresh & Htok & _ & -> & ->).
  by intros [= <- <- <-].
Qed.

(** X23: the migration that raises the quota turns every quota of exactly
    10 into 20, whether the guest never uploaded or is back at 10 after
    uploads and deletes, and leaves every other quota; afterwards no
    guest has exactly 10 photos left, and running it again changes
    nothing. *)
Theorem raise_default_is_idempotent db :
  Migrations.raise_default (Migrations.raise_default db) = Migrations.raise_default db
  ∧ (∀ g gd, guests (Migrations.raise_default db) !! g = Some gd → photos_remaining gd ≠ 10)
  ∧ (∀ g gd, guests db !! g = Some gd →
       guests (Migrations.raise_default db) !! g
       = Some (with_quota (if photos_remaining gd =? 10 then 20 else photos_remaining gd) gd)).
Proof.
  assert (∀ gd, photos_remaining (Migrations.raise_default_row gd) ≠ 10) as Hne.
  { intros gd. unfold Migrations.raise_default_row.
    destruct (photos_remaining gd =? 10) eqn:E; simpl; lia. }
  split; [|split].
  - unfold Migrations.raise_default, set_guests, set_photos_remaining_default. simpl.
    f_equal. rewrite <- map_fmap_compose. apply map_fmap_ext.
    intros g gd _. simpl. unfold Migrations.raise_default_row at 1.
    specialize (Hne gd). by destruct (_ =? 10) eqn:E; [lia|].
  - intros g gd. simpl. rewrite lookup_fmap.
    destruct (guests db !! g) as [gd0|]; [|done]. intros [= <-]. apply Hne.
  - intros g gd Hgd. simpl. rewrite lookup_fmap, Hgd. simpl. f_equal.
    unfold Migrations.raise_default_row. destruct (_ =? 10); [done|].
    by destruct gd.
Qed.

End JoinFacts.

(** ** The upload, from the page's copy of the guest row *)
Section PageUpload.
Import Backend Spec Tabs.


End PageUpload.

(** ** The further properties on concrete runs *)
Section FurtherWitnesses.
Import Backend App Spec Spec2 Scenario Scenario2.
Open Scope string_scope.
Open Scope Z_scope.

Lemma insert_event_keeps_mirror_witness :
  ("event-1" = "event-1" →
   mirrors "event-1" (Realtime.on_insert sign_ok ("photo-2", cake) feed_after_story) with_cake)
  ∧ ("event-1" ≠ "event-1" → mirrors "event-1" feed_after_story with_cake).
Proof.
  assert (photos_insert None "photo-2" "2026-06-01T19:00:00Z" "event-1" "guest-1"
            "event-1/guest-1/2-cake.jpg" (Some "Ann") None after_story = (with_cake, None))
    as H by (vm_compute; reflexivity).
  exact (insert_event_keeps_mirror sign_ok "event-1" feed_after_story after_story None
           "photo-2" "2026-06-01T19:00:00Z" "event-1" "guest-1" "event-1/guest-1/2-cake.jpg"
           (Some "Ann") None with_cake
           (fetched_mirrors sign_ok "event-1" after_story []) H).
Defined.

Lemma delete_event_keeps_mirror_witness :
  mirrors "event-1" (Realtime.on_delete "photo-1" feed_after_story) first_deleted.
Proof.
  assert (photos after_story !! "photo-1" = Some first_photo.2) as H1
    by (vm_compute; reflexivity).
  assert (guest_id first_photo.2 = "guest-1") as H2 by reflexivity.
  assert (photos_delete None "guest-1" "photo-1" after_story = (first_deleted, None)) as H3
    by (vm_compute; reflexivity).
  exact (delete_event_keeps_mirror "event-1" feed_after_story after_story None "guest-1"
           "photo-1" first_photo.2 first_deleted
           (fetched_mirrors sign_ok "event-1" after_story []) H1 H2 H3).
Defined.

Lemma update_event_keeps_mirror_witness :
  mirrors "event-1"
    (Realtime.on_update ("photo-1", with_caption (Some "Cheers") first_photo.2)
       feed_after_story)
    first_recaptioned.
Proof.
  assert (photos after_story !! "photo-1" = Some first_photo.2) as H1
    by (vm_compute; reflexivity).
  assert (guest_id first_photo.2 = "guest-1") as H2 by reflexivity.
  assert (photos_update_caption None "guest-1" "photo-1" (Some "Cheers") after_story
          = (first_recaptioned, None)) as H3 by (vm_compute; reflexivity).
  exact (update_event_keeps_mirror "event-1" feed_after_story after_story None "guest-1"
           "photo-1" (Some "Cheers") first_photo.2 first_recaptioned
           (fetched_mirrors sign_ok "event-1" after_story []) H1 H2 H3).
Defined.


Lemma legacy_photo_delete_leaves_object_witness :
  ∃ db2 t',
    Feed.delete_photo delete_env ann (PhotoUpload.photo_id (upload_env "1")) legacy_uploaded
    = (db2, [], PhotoSwipeFeed.Deleted t')
    ∧ photos db2 !! PhotoUpload.photo_id (upload_env "1") = None
    ∧ storage db2 = storage legacy_uploaded
    ∧ PhotoUploadV1.fileName (upload_env "1") ann_props photo_file ∈ storage db2.
Proof.
  assert (PhotoUploadV1.handleUpload getPublicUrl (upload_env "1") ann_props (Some photo_file)
            joined
          = (legacy_uploaded, PhotoUpload.Captured (captured 9))) as H
    by (vm_compute; reflexivity).
  assert (getPublicUrl (PhotoUploadV1.fileName (upload_env "1") ann_props photo_file)
          ∉ storage legacy_uploaded) as H0
    by (apply (bool_decide_unpack _); vm_compute; exact I).
  assert (PhotoUpload.photo_id (upload_env "1") ≠ EmptyString) as H1 by (vm_compute; discriminate).
  assert (PhotoUpload.guestId ann_props ≠ EmptyString) as H2 by (vm_compute; discriminate).
  exact (legacy_photo_delete_leaves_object getPublicUrl (upload_env "1") ann_props photo_file
           joined legacy_uploaded (captured 9) delete_env ann
           H H0 eq_refl eq_refl H1 H2 eq_refl eq_refl).
Defined.

Lemma download_all_counts_rows_witness :
  let out := DownloadAll.handleDownloadAll download_env (Some the_event) after_story in
  DownloadAll.downloads out
  = List.map (DownloadAll.filename (DownloadAll.getTime download_env))
      (List.filter (signed download_env) (DownloadAll.rows (e_id the_event) after_story))
  ∧ List.length (DownloadAll.console out)
    = List.length (List.filter (λ p, negb (signed download_env p))
                     (DownloadAll.rows (e_id the_event) after_story))
  ∧ DownloadAll.toast out
    = Some (mkToast "Download complete"
              (Some ("Downloaded "
                       +:+ pretty (List.length (DownloadAll.rows (e_id the_event) after_story))
                       +:+ " photos."))
              Default).
Proof.
  assert (DownloadAll.rows (e_id the_event) after_story ≠ []) as H
    by (vm_compute; discriminate).
  exact (download_all_counts_rows download_env the_event after_story eq_refl
           (λ _, eq_refl) H).
Defined.

Lemma download_file_name_shape_witness :
  DownloadAll.filename (λ _, "1780336800000") raw_photo
  = "Ann___Ben_1780336800000.event-1/guest-1/raw".
Proof.
  assert (string_all not_dot (image_url raw_photo) = true) as H1 by (vm_compute; reflexivity).
  assert (image_url raw_photo ≠ EmptyString) as H2 by (vm_compute; discriminate).
  destruct (download_file_name_shape (λ _, "1780336800000") raw_photo)
    as (Hname & _ & _ & _ & _ & _ & Hext).
  rewrite Hname, (Hext H1 H2). vm_compute. reflexivity.
Defined.

Lemma couple_feed_shows_own_event_witness :
  false = false
  ∧ ∃ uid code,
      Some "couple-1" = Some uid ∧ Some "ALIBOB-4FZY" = Some code ∧ code ≠ EmptyString
      ∧ wedding_events after_story !! code = Some the_event
      ∧ couple_user_id the_event = uid
      ∧ ∀ e, e ∈ feed_after_story →
             photos after_story !! Realtime.entry_id e = Some (Realtime.entry_row e)
             ∧ p_wedding_event_id (Realtime.entry_row e) = e_id the_event.
Proof.
  assert (CoupleFeed.open false (Some "couple-1") (Some "ALIBOB-4FZY") None None sign_ok
            after_story
          = CoupleFeed.Show the_event feed_after_story) as H by (vm_compute; reflexivity).
  exact (couple_feed_shows_own_event false (Some "couple-1") (Some "ALIBOB-4FZY") None None
           sign_ok after_story the_event feed_after_story H).
Defined.

Lemma created_session_is_found_again_witness :
  is_Some (Some ben)
  ∧ AnonymousSession.checkSession None (Some ("anon-1", true)) with_ben = Some ben.
Proof.
  assert (AnonymousSession.createGuestSession anon_env "event-1" (Some "Ben") None None wedding
          = (Some ("anon-1", true), with_ben, Some ben, AnonymousSession.mkResult true None))
    as H by (vm_compute; reflexivity).
  exact (created_session_is_found_again anon_env "event-1" (Some "Ben") None None wedding
           (Some ("anon-1", true)) with_ben (Some ben) H).
Defined.

Lemma created_event_is_loaded_witness :
  "ALIBOB-4FZY" = Dashboard.generateEventCode "Alice" "Bob" "0.4fzyo82mvyr"
  ∧ CoupleDashboard.fetchWeddingEvent None (Some "couple-1") wedding
    = (Some ("ALIBOB-4FZY", mkWeddingEvent "event-1" "couple-1" "Alice" "Bob" "2026-06-01"),
       []).
Proof.
  assert (∀ c ev, wedding_events Migrations.create_tables !! c = Some ev →
                  couple_user_id ev ≠ "couple-1") as H0.
  { intros c ev. simpl. by rewrite lookup_empty. }
  assert (Dashboard.handleCreateEvent None (Some "couple-1") "event-1" "0.4fzyo82mvyr"
            "Alice" "Bob" "2026-06-01" Migrations.create_tables
          = (wedding,
             Dashboard.Created "ALIBOB-4FZY"
               (mkToast "Wedding created!" (Some "Your wedding photo experience is ready.")
                  Default))) as H by (vm_compute; reflexivity).
  exact (created_event_is_loaded None "couple-1" "event-1" "0.4fzyo82mvyr" "Alice" "Bob"
           "2026-06-01" Migrations.create_tables wedding "ALIBOB-4FZY" _ H0 H).
Defined.

Lemma two_events_of_one_couple_load_none_witness :
  ∃ message,
    CoupleDashboard.fetchWeddingEvent None (Some "couple-1") second_wedding
    = (None, ["Error fetching wedding event: " +:+ message]).
Proof.
  assert (wedding_events second_wedding !! "ALIBOB-4FZY" = Some the_event) as H1
    by (vm_compute; reflexivity).
  assert (wedding_events second_wedding !! "ALIBOB-9K2Q" = Some second_event) as H2
    by (vm_compute; reflexivity).
  assert ("ALIBOB-4FZY" ≠ "ALIBOB-9K2Q") as H3 by discriminate.
  exact (two_events_of_one_couple_load_none None "couple-1" second_wedding
           "ALIBOB-4FZY" the_event "ALIBOB-9K2Q" second_event H1 H2 H3 eq_refl eq_refl).
Defined.

Lemma dashboard_counters_follow_the_tables_witness :
  CoupleDashboard.fetchGuestStats None None "event-1" joined
  = CoupleDashboard.mkStats
      ((if String.eqb (GuestSession.weddingEventId ann) "event-1" then 1 else 0)
       + CoupleDashboard.total_guests
           (CoupleDashboard.fetchGuestStats None None "event-1" wedding))
      (CoupleDashboard.total_photos
         (CoupleDashboard.fetchGuestStats None None "event-1" wedding)).
Proof.
  assert (JoinWedding.handleJoin join_env " alibob-4fzy " "Ann" wedding
          = (joined, JoinWedding.Joined ann welcome)) as H by (vm_compute; reflexivity).
  exact (proj1 (proj2 (proj2 (dashboard_counters_follow_the_tables "event-1" wedding)))
           join_env " alibob-4fzy " "Ann" joined ann welcome H).
Defined.

Lemma guest_page_opens_feed_after_first_upload_witness :
  "event-1" = GuestSession.weddingEventId ann
  ∧ (1 ≤ uploads (GuestSession.guestId ann) story Migrations.create_tables)%nat.
Proof.
  assert (GuestPage.loaded None None ann (run story Migrations.create_tables)
          = GuestPage.FeedView "event-1" true) as H by (vm_compute; reflexivity).
  exact (proj1 (guest_page_opens_feed_after_first_upload story None None ann)
           "event-1" true H).
Defined.

Lemma upload_opens_the_photo_policy_witness :
  Policies.visible_photos "guest-1" joined = []
  ∧ In first_photo (Policies.visible_photos "guest-1" after_story).
Proof.
  assert (guests joined !! "guest-1" = Some ann_row) as H1 by (vm_compute; reflexivity).
  assert (∀ c ev, wedding_events joined !! c = Some ev → couple_user_id ev ≠ "guest-1") as H2.
  { intros c ev Hc.
    assert (wedding_events joined = {[ "ALIBOB-4FZY" := the_event ]}) as Heq
      by (vm_compute; reflexivity).
    rewrite Heq in Hc. apply lookup_singleton_Some in Hc as [_ <-]. discriminate. }
  assert (PhotoUpload.handleUpload (upload_env "1") ann_props (Some photo_file)
            "To the happy couple" joined
          = (after_story, PhotoUpload.Captured (captured 9))) as H3
    by (vm_compute; reflexivity).
  destruct (upload_opens_the_photo_policy "guest-1" ann_row joined H1 eq_refl H2)
    as [Hnone Hafter].
  split; [exact Hnone|].
  exact (proj1 (Hafter (upload_env "1") ann_props photo_file "To the happy couple"
                  after_story (captured 9) eq_refl eq_refl H3)).
Defined.

Lemma joined_token_identifies_the_guest_witness :
  Policies.get_guest_by_token (GuestSession.sessionToken ann) joined
  = Some (GuestSession.guestId ann)
  ∧ Policies.guest_belongs_to_event (GuestSession.guestId ann)
      (GuestSession.weddingEventId ann) joined = true.
Proof.
  assert (JoinWedding.handleJoin join_env " alibob-4fzy " "Ann" wedding
          = (joined, JoinWedding.Joined ann welcome)) as H by (vm_compute; reflexivity).
  exact (joined_token_identifies_the_guest join_env " alibob-4fzy " "Ann" wedding joined ann
           welcome H).
Defined.

Lemma join_writes_a_locked_row_with_the_default_quota_witness :
  guests wedding !! "guest-1" = None
  ∧ guests joined
    = <["guest-1" := mkGuest "event-1" (Js.or_null (Js.trim "Ann")) "token-1"
                       (photos_remaining_default wedding) false]> (guests wedding)
  ∧ Some "Ann" = Js.or_null (Js.trim "Ann")
  ∧ photos joined = photos wedding
  ∧ description welcome = Some "You have 10 photos to share.".
Proof.
  assert (JoinWedding.handleJoin join_env " alibob-4fzy " "Ann" wedding
          = (joined, JoinWedding.Joined ann welcome)) as H by (vm_compute; reflexivity).
  exact (join_writes_a_locked_row_with_the_default_quota join_env " alibob-4fzy " "Ann"
           wedding joined ann welcome H).
Defined.

Lemma raise_default_is_idempotent_witness :
  guests (Migrations.raise_default joined) !! "guest-1"
  = Some (with_quota (if photos_remaining ann_row =? 10 then 20 else photos_remaining ann_row)
            ann_row).
Proof.
  assert (guests joined !! "guest-1" = Some ann_row) as H by (vm_compute; reflexivity).
  exact (proj2 (proj2 (raise_default_is_idempotent joined)) "guest-1" ann_row H).
Defined.


End FurtherWitnesses.
